(** * Document ingestion: [agent_executor/upload.py]

    A shallow embedding of the upload module of the agent executor and the
    properties of its batching ingester.

    The module sequences four external collaborators (base64 decoding, the
    [magic] mime detector, a blob parser and a text splitter) and writes the
    resulting chunks to a vector store.  The collaborators are parameters of
    the embedding; every call made to one of them is recorded in a trace, so
    that "which calls were made, in which order, with which arguments" is a
    statement about a list of events. *)

From stdpp Require Import base list strings gmap.
From Stdlib Require Import ZArith Lia.
From Stdlib.Strings Require Import Ascii String Byte.

Local Open Scope string_scope.
Local Open Scope list_scope.
Local Open Scope Z_scope.

(** ** Data model *)

(** [langchain.schema.Document]: text plus a mutable metadata dictionary. *)
Record Document := mkDocument {
  page_content : string;
  metadata : gmap string string
}.

(** [Blob]: raw bytes, an optional path and a mime type. *)
Record Blob := mkBlob {
  blob_data : list byte;
  blob_path : option string;
  blob_mimetype : string
}.

(** [IngestionOutput] is the typed dictionary [{"success": bool}]. *)
Record IngestionOutput := mkIngestionOutput { success : bool }.

(** The exceptions that the module raises itself, and those that come out of
    a collaborator. *)
Inductive exn :=
| ValueError (msg : string)
| ImportError (msg : string)
| KeyError (key : string)
| ExternalError (msg : string).

Inductive result (A : Type) :=
| Ok (a : A)
| Err (e : exn).
Arguments Ok {A} a.
Arguments Err {A} e.

(** ** Calls to the collaborators *)

Inductive event :=
| EvDecode (payload : string)
    (* base64.decodebytes(payload) *)
| EvMime (data : list byte)
    (* magic.Magic(mime=True).from_buffer(data) *)
| EvParse (blob : Blob)
    (* parser.lazy_parse(blob) *)
| EvYield (document : Document)
    (* the lazy parse handed over its next document *)
| EvSplit (document : Document)
    (* text_splitter.split_documents([document]) *)
| EvAdd (batch : list Document) (outcome : result (list string)).
    (* vectorstore.add_documents(batch), with what it returned or raised *)

Definition trace := list event.

(** The batches handed to [add_documents], in call order. *)
Fixpoint add_calls (t : trace) : list (list Document) :=
  match t with
  | [] => []
  | EvAdd batch _ :: t' => batch :: add_calls t'
  | _ :: t' => add_calls t'
  end.

(** The identifier lists returned by the calls that succeeded, in order. *)
Fixpoint returned_ids (t : trace) : list (list string) :=
  match t with
  | [] => []
  | EvAdd _ (Ok new) :: t' => new :: returned_ids t'
  | _ :: t' => returned_ids t'
  end.

(** ** The effect monad

    A computation reads and updates the state [S] of the vector store, may
    raise, and emits the events of the calls it makes. *)

Definition M (S A : Type) : Type := S -> result A * S * trace.

Definition ret {S A} (a : A) : M S A := fun s => (Ok a, s, []).

Definition raise {S A} (e : exn) : M S A := fun s => (Err e, s, []).

Definition bind {S A B} (m : M S A) (k : A -> M S B) : M S B :=
  fun s =>
    match m s with
    | (Ok a, s1, t1) =>
        match k a s1 with
        | (r, s2, t2) => (r, s2, t1 ++ t2)
        end
    | (Err e, s1, t1) => (Err e, s1, t1)
    end.

Definition emit {S} (e : event) : M S unit := fun s => (Ok tt, s, [e]).

Definition lift {S A} (r : result A) : M S A :=
  match r with
  | Ok a => ret a
  | Err e => raise e
  end.

Notation "'let*' x ':=' m 'in' k" := (bind m (fun x => k))
  (at level 10, x pattern, m at level 100, k at level 200).

(** ** Collaborators *)

(** [TextSplitter]: only [split_documents] is used. *)
Record TextSplitter := mkTextSplitter {
  split_documents : list Document -> list Document
}.

(** [VectorStore] over a store state [S]: [add_documents] returns the new
    identifiers or raises, and leaves the store in some state either way. *)
Record VectorStore (S : Type) := mkVectorStore {
  add_documents : list Document -> S -> result (list string) * S
}.
Arguments add_documents {S} _ _ _.
Arguments mkVectorStore {S} _.

(** [BaseBlobParser]: [lazy_parse] ends with a finite sequence of documents,
    or raises before it hands over the first one. *)
Record BaseBlobParser := mkParser {
  lazy_parse : Blob -> result (list Document)
}.

(** The [magic] module, when it can be imported: its [from_buffer]. *)
Definition MagicModule := option (list byte -> string).

(** The runtime: what [import magic] finds and [base64.decodebytes]. *)
Record Runtime := mkRuntime {
  magic : MagicModule;
  decodebytes : string -> result (list byte)
}.

(** [len(xs)] as a Python integer. *)
Definition len {A} (xs : list A) : Z := Z.of_nat (List.length xs).

(** ** [_guess_mimetype] *)

Definition magic_not_found : string :=
  "magic package not found, please install it with `pip install python-magic`".

Definition _guess_mimetype {S} (rt : Runtime) (file_bytes : list byte)
  : M S string :=
  match magic rt with
  | None => raise (ImportError magic_not_found)
  | Some from_buffer =>
      let* _ := emit (EvMime file_bytes) in
      ret (from_buffer file_bytes)
  end.

(** ** [_convert_ingestion_input_to_blob]

    The ingestion input is a dictionary: [base64_file] is looked up by
    subscript (a missing key raises), [filename] is optional. *)

Definition _convert_ingestion_input_to_blob {S} (rt : Runtime)
    (ingestion_input : gmap string string) : M S Blob :=
  match ingestion_input !! "base64_file" with
  | None => raise (KeyError "base64_file")
  | Some base64_file =>
      let* _ := emit (EvDecode base64_file) in
      let* file_data := lift (decodebytes rt base64_file) in
      let* mimetype := _guess_mimetype rt file_data in
      let filename := ingestion_input !! "filename" in
      ret (mkBlob file_data filename mimetype)
  end.

(** ** [_update_document_metadata]

    [document.metadata["namespace"] = namespace]; the embedding returns the
    updated document. *)

Definition _update_document_metadata (document : Document)
    (namespace : string) : Document :=
  mkDocument (page_content document)
             (<["namespace" := namespace]> (metadata document)).

(** ** [ingest_blob] and [aingest_blob] *)

Section Ingest.
Context {S : Type}.
Variable text_splitter : TextSplitter.
Variable vectorstore : VectorStore S.
Variable namespace : string.
Variable batch_size : Z.

(** [vectorstore.add_documents(batch)], recorded. *)
Definition vs_add (batch : list Document) : M S (list string) :=
  fun s =>
    match add_documents vectorstore batch s with
    | (r, s') => (r, s', [EvAdd batch r])
    end.

(** The first three statements of the loop body: split the document and
    tag every chunk. *)
Definition tagged_chunks (document : Document) : list Document :=
  map (fun doc => _update_document_metadata doc namespace)
      (split_documents text_splitter [document]).

(** All the chunks of a sequence of documents, and how many they are. *)
Definition all_chunks (documents : list Document) : list Document :=
  flat_map tagged_chunks documents.

Definition chunk_count (documents : list Document) : Z :=
  len (all_chunks documents).

(** The [for] loop of [ingest_blob], from the current values of
    [docs_to_index] and [ids]. *)
Fixpoint ingest_loop (documents : list Document)
    (docs_to_index : list Document) (ids : list string)
  : M S (list Document * list string) :=
  match documents with
  | [] => ret (docs_to_index, ids)
  | document :: rest =>
      let* _ := emit (EvYield document) in
      let* _ := emit (EvSplit document) in
      let docs := tagged_chunks document in
      let docs_to_index := docs_to_index ++ docs in
      if len docs_to_index >=? batch_size then
        let* new := vs_add docs_to_index in
        ingest_loop rest [] (ids ++ new)
      else
        ingest_loop rest docs_to_index ids
  end.

(** The check after the loop. *)
Definition final_flush (st : list Document * list string)
  : M S (list string) :=
  let '(docs_to_index, ids) := st in
  if len docs_to_index >=? batch_size then
    let* new := vs_add docs_to_index in
    ret (ids ++ new)
  else
    ret ids.

Definition ingest_blob (blob : Blob) (parser : BaseBlobParser)
  : M S (list string) :=
  let* _ := emit (EvParse blob) in
  let* documents := lift (lazy_parse parser blob) in
  let* st := ingest_loop documents [] [] in
  final_flush st.

(** The loop of [aingest_blob]: the chunks are tagged but never added to
    [docs_to_index]. *)
Fixpoint aingest_loop (documents : list Document)
    (docs_to_index : list Document) (ids : list string)
  : M S (list Document * list string) :=
  match documents with
  | [] => ret (docs_to_index, ids)
  | document :: rest =>
      let* _ := emit (EvYield document) in
      let* _ := emit (EvSplit document) in
      let docs := tagged_chunks document in
      if len docs_to_index >=? batch_size then
        let* new := vs_add docs_to_index in
        aingest_loop rest [] (ids ++ new)
      else
        aingest_loop rest docs_to_index ids
  end.

Definition aingest_blob (blob : Blob) (parser : BaseBlobParser)
  : M S (list string) :=
  let* _ := emit (EvParse blob) in
  let* documents := lift (lazy_parse parser blob) in
  let* st := aingest_loop documents [] [] in
  final_flush st.

End Ingest.

(** ** [_get_default_parser]

    The parsers that do the work belong to the document-loader library. *)

Record ParserLibrary := mkParserLibrary {
  PyMuPDFParser : BaseBlobParser;
  TextParser : BaseBlobParser;
  BS4HTMLParser : BaseBlobParser;
  MsWordParser : BaseBlobParser
}.

(** The library's [MimeTypeBasedParser]: a handler per mime type and an
    optional fallback; a blob nobody handles is refused. *)
Definition MimeTypeBasedParser (handlers : gmap string BaseBlobParser)
    (fallback_parser : option BaseBlobParser) : BaseBlobParser :=
  mkParser (fun blob =>
    match handlers !! blob_mimetype blob with
    | Some handler => lazy_parse handler blob
    | None =>
        match fallback_parser with
        | Some fallback => lazy_parse fallback blob
        | None =>
            Err (ValueError ("Unsupported mime type: " ++ blob_mimetype blob)%string)
        end
    end).

Definition docx_mimetype : string :=
  "application/vnd.openxmlformats-officedocument.wordprocessingml.document".

Definition _get_default_parser (lib : ParserLibrary) : BaseBlobParser :=
  MimeTypeBasedParser
    (<["application/pdf" := PyMuPDFParser lib]>
     (<["text/plain" := TextParser lib]>
      (<["text/html" := BS4HTMLParser lib]>
       (<["application/msword" := MsWordParser lib]>
        (<[docx_mimetype := MsWordParser lib]> ∅)))))
    None.

(** ** [IngestRunnable] *)

Record IngestRunnable (S : Type) := mkIngestRunnable {
  text_splitter : TextSplitter;
  vectorstore : VectorStore S;
  input_key : string;
  namespace : string
}.
Arguments text_splitter {S} _.
Arguments vectorstore {S} _.
Arguments input_key {S} _.
Arguments namespace {S} _.
Arguments mkIngestRunnable {S} _ _ _ _.

(** The default of the [namespace] field and of the [batch_size] keyword. *)
Definition default_namespace : string := "".
Definition default_batch_size : Z := 100.

(** Truth value of a [str]. *)
Definition truthy (s : string) : bool :=
  match s with
  | EmptyString => false
  | String _ _ => true
  end.

Definition invoke {S} (rt : Runtime) (lib : ParserLibrary)
    (self : IngestRunnable S) (input : gmap string string)
  : M S IngestionOutput :=
  if negb (truthy (namespace self)) then
    raise (ValueError "namespace must be provided")
  else
    let* blob := _convert_ingestion_input_to_blob rt input in
    let* _ := ingest_blob (text_splitter self) (vectorstore self)
                          (namespace self) default_batch_size
                          blob (_get_default_parser lib) in
    ret (mkIngestionOutput true).

(** ** Concrete collaborators

    Small executable stand-ins for the external collaborators, used to run
    the module on concrete inputs. *)

Module Examples.

(** Value of a character of the standard base64 alphabet. *)
Definition sextet (c : ascii) : option N :=
  let n := N_of_ascii c in
  if ((65 <=? n) && (n <=? 90))%N then Some (n - 65)%N
  else if ((97 <=? n) && (n <=? 122))%N then Some (n - 71)%N
  else if ((48 <=? n) && (n <=? 57))%N then Some (n + 4)%N
  else if (n =? 43)%N then Some 62%N
  else if (n =? 47)%N then Some 63%N
  else None.

(** The data characters in front of the padding; characters outside the
    alphabet are skipped. *)
Fixpoint sextets (s : string) : list N :=
  match s with
  | EmptyString => []
  | String c s' =>
      if Ascii.eqb c "="%char then []
      else match sextet c with
           | Some v => v :: sextets s'
           | None => sextets s'
           end
  end.

Definition octet (n : N) : byte := byte_of_ascii (ascii_of_N (n mod 256)).

Fixpoint octets (vs : list N) : result (list byte) :=
  match vs with
  | [] => Ok []
  | [_] => Err (ExternalError "Incorrect padding")
  | [a; b] => Ok [octet (a * 4 + b / 16)]
  | [a; b; c] => Ok [octet (a * 4 + b / 16); octet (b * 16 + c / 4)]
  | a :: b :: c :: d :: rest =>
      match octets rest with
      | Ok bs =>
          Ok (octet (a * 4 + b / 16) :: octet (b * 16 + c / 4)
              :: octet (c * 64 + d) :: bs)
      | Err e => Err e
      end
  end%N.

Definition b64decode (payload : string) : result (list byte) :=
  octets (sextets payload).

(** A runtime where [magic] is installed and calls everything text. *)
Definition text_runtime : Runtime :=
  mkRuntime (Some (fun _ => "text/plain")) b64decode.

(** A runtime without [magic]. *)
Definition bare_runtime : Runtime := mkRuntime None b64decode.

(** A text parser: the whole blob as one document. *)
Definition text_parser : BaseBlobParser :=
  mkParser (fun blob =>
    Ok [mkDocument (string_of_list_byte (blob_data blob))
          match blob_path blob with
          | Some p => {["source" := p]}
          | None => ∅
          end]).

Definition unsupported : BaseBlobParser :=
  mkParser (fun _ => Err (ExternalError "parser not installed")).

Definition text_only : ParserLibrary :=
  mkParserLibrary unsupported text_parser unsupported unsupported.

(** A parser that hands over a given sequence of documents. *)
Definition yields (documents : list Document) : BaseBlobParser :=
  mkParser (fun _ => Ok documents).

(** Cut a text into consecutive pieces of [size] characters. *)
Fixpoint cut (size room : nat) (piece s : string) : list string :=
  match s with
  | EmptyString =>
      match piece with
      | EmptyString => []
      | _ => [piece]
      end
  | String c s' =>
      match room with
      | O => piece :: cut size (Nat.pred size) (String c EmptyString) s'
      | Datatypes.S room' =>
          cut size room' (piece ++ String c EmptyString)%string s'
      end
  end.

(** A splitter by length: every piece is a chunk that inherits the
    metadata of its document. *)
Definition length_splitter (chunk_size : nat) : TextSplitter :=
  mkTextSplitter (fun documents =>
    flat_map (fun d =>
                map (fun piece => mkDocument piece (metadata d))
                    (cut chunk_size chunk_size EmptyString (page_content d)))
             documents).

(** An in-memory store: the documents added so far; the identifier of a
    document is its position, written in unary. *)
Definition unary (n : nat) : string :=
  string_of_list_ascii (repeat "i"%char n).

Definition in_memory : VectorStore (list Document) :=
  mkVectorStore (fun batch s =>
    (Ok (map unary (seq (List.length s) (List.length batch))), s ++ batch)).

(** The same store with room for [capacity] documents: a batch that would
    not fit is refused. *)
Definition bounded (capacity : nat) : VectorStore (list Document) :=
  mkVectorStore (fun batch s =>
    if (List.length s + List.length batch <=? capacity)%nat then
      add_documents in_memory batch s
    else (Err (ExternalError "store is full"), s)).

Definition doc (text : string) : Document := mkDocument text ∅.

Definition blank : Blob := mkBlob [] None "text/plain".

Definition test_file : string := "VGhpcyBpcyBhIHRlc3QgZmlsZS4=".

End Examples.

(** ** The store after a run

    The only way the module touches the store is [add_documents]; [replay]
    applies a sequence of calls to a store state. *)

Fixpoint replay {S} (vs : VectorStore S) (batches : list (list Document))
    (s : S) : S :=
  match batches with
  | [] => s
  | batch :: rest => replay vs rest (add_documents vs batch s).2
  end.

(** A store that accepts every batch. *)
Definition never_raises {S} (vs : VectorStore S) : Prop :=
  forall batch s, exists new, (add_documents vs batch s).1 = Ok new.

(** ** What holds of the loop

    [carries_namespace namespace doc]: the document is tagged with the
    namespace.  [accepted ev]: the event is not a refused [add_documents]. *)

Definition carries_namespace (namespace : string) (doc : Document) : Prop :=
  metadata doc !! "namespace" = Some namespace.

Definition accepted (ev : event) : Prop :=
  match ev with
  | EvAdd _ (Err _) => False
  | _ => True
  end.

Section LoopInvariant.
Context {S : Type}.
Variable splitter : TextSplitter.
Variable vs : VectorStore S.
Variable ns : string.
Variable b : Z.
Variable s0 : S.

(** After the documents [done], with [buf] pending, [ids] collected, the
    store in state [s] and the calls [t] made so far. *)
Definition loop_inv (done buf : list Document) (ids : list string)
    (s : S) (t : trace) : Prop :=
  Forall (fun batch => b <= len batch) (add_calls t)
  /\ Forall (Forall (carries_namespace ns)) (add_calls t)
  /\ Forall (carries_namespace ns) buf
  /\ List.concat (add_calls t) ++ buf = all_chunks splitter ns done
  /\ ids = List.concat (returned_ids t)
  /\ s = replay vs (add_calls t) s0
  /\ Forall accepted t
  /\ (1 <= b -> len buf < b).

(** When the store raised [e], leaving state [s] after the calls [t]. *)
Definition loop_exc (e : exn) (s : S) (t : trace) : Prop :=
  Forall (fun batch => b <= len batch) (add_calls t)
  /\ Forall (Forall (carries_namespace ns)) (add_calls t)
  /\ s = replay vs (add_calls t) s0
  /\ exists t1 batch, t = t1 ++ [EvAdd batch (Err e)] /\ Forall accepted t1.

End LoopInvariant.

(** ** The ingester as it is described

    "After processing each parsed document, if the pending buffer size is
    greater than or equal to the batch size, flush: send the entire buffer
    to the vector store, collect the returned identifiers, append them to
    the result list, and clear the buffer."  The result is the list of the
    identifiers of all flushes, in flush order. *)

Section Described.
Context {S : Type}.
Variable text_splitter : TextSplitter.
Variable vectorstore : VectorStore S.
Variable namespace : string.
Variable batch_size : Z.

Fixpoint flush_when_full (documents : list Document)
    (buffer : list Document) (ids : list string) : M S (list string) :=
  match documents with
  | [] => ret ids
  | document :: rest =>
      let* _ := emit (EvYield document) in
      let* _ := emit (EvSplit document) in
      let buffer := buffer ++ tagged_chunks text_splitter namespace document in
      if len buffer >=? batch_size then
        let* new := vs_add vectorstore buffer in
        flush_when_full rest [] (ids ++ new)
      else
        flush_when_full rest buffer ids
  end.

Definition described_ingest (blob : Blob) (parser : BaseBlobParser)
  : M S (list string) :=
  let* _ := emit (EvParse blob) in
  let* documents := lift (lazy_parse parser blob) in
  flush_when_full documents [] [].

End Described.

(** The calls of a run in which every document is parsed and split and
    nothing is sent to the store. *)
Definition idle_trace (documents : list Document) : trace :=
  flat_map (fun d => [EvYield d; EvSplit d]) documents.

(** [needle in text]. *)
Definition contains (needle text : string) : bool :=
  match String.index 0 needle text with
  | Some _ => true
  | None => false
  end.

(** A run sends its chunks in exactly [k] batches of [batch_size]. *)
Definition sent_in_batches_of (batch_size k : Z) (t : trace) : Prop :=
  len (add_calls t) = k
  /\ Forall (fun batch => len batch = batch_size) (add_calls t).

(** The documents handed to the splitter, in call order. *)
Fixpoint split_calls (t : trace) : list Document :=
  match t with
  | [] => []
  | EvSplit document :: t' => document :: split_calls t'
  | _ :: t' => split_calls t'
  end.

(** A store that returns one identifier for each document it accepts. *)
Definition one_id_per_document {S} (vs : VectorStore S) : Prop :=
  forall batch s new s',
    add_documents vs batch s = (Ok new, s') ->
    List.length new = List.length batch.

(** An [add_documents] event whose identifiers match its batch. *)
Definition one_id_each (ev : event) : Prop :=
  match ev with
  | EvAdd batch (Ok new) => List.length new = List.length batch
  | _ => True
  end.

(** ** [IngestRunnable.config_specs]

    The configurable fields of the runnable: those it inherits, which the
    base class computes, followed by the one for [namespace]. *)

Inductive annotation := AnnStr.

Record ConfigurableFieldSpec := mkConfigurableFieldSpec {
  spec_id : string;
  spec_annotation : annotation;
  spec_name : string;
  spec_description : string;
  spec_default : string
}.

Definition config_specs (inherited : list ConfigurableFieldSpec)
  : list ConfigurableFieldSpec :=
  inherited ++ [mkConfigurableFieldSpec "namespace" AnnStr "" "" ""].

(** * Properties *)

(** ** The stand-ins compute *)

Example b64decode_test_file :
  Examples.b64decode Examples.test_file
  = Ok (list_byte_of_string "This is a test file.").
Proof. vm_compute. reflexivity. Qed.

Example cut_by_one :
  Examples.cut 1 1 "" "abc" = ["a"; "b"; "c"].
Proof. reflexivity. Qed.

Example cut_short_text :
  Examples.cut 4000 4000 "" "This is a test file." = ["This is a test file."].
Proof. vm_compute. reflexivity. Qed.


(** ** Traces *)

Lemma add_calls_app (t1 t2 : trace) :
  add_calls (t1 ++ t2) = add_calls t1 ++ add_calls t2.
Proof.
  induction t1 as [|ev t1 IH]; [reflexivity|].
  destruct ev; simpl; rewrite IH; reflexivity.
Qed.

Lemma returned_ids_app (t1 t2 : trace) :
  returned_ids (t1 ++ t2) = returned_ids t1 ++ returned_ids t2.
Proof.
  induction t1 as [|ev t1 IH]; [reflexivity|].
  destruct ev as [| | | | |batch [new|e]]; simpl; rewrite IH; reflexivity.
Qed.

Lemma len_app {A} (xs ys : list A) : len (xs ++ ys) = len xs + len ys.
Proof. unfold len. rewrite length_app. lia. Qed.

Lemma len_nonneg {A} (xs : list A) : 0 <= len xs.
Proof. unfold len. lia. Qed.

Lemma len_nil_inv {A} (xs : list A) : len xs = 0 -> xs = [].
Proof. destruct xs; [reflexivity|]. unfold len. simpl. lia. Qed.

Lemma replay_snoc {S} (vs : VectorStore S) batches batch (s : S) :
  replay vs (batches ++ [batch]) s
  = (add_documents vs batch (replay vs batches s)).2.
Proof.
  revert s. induction batches as [|b0 rest IH]; intros s; simpl; [reflexivity|].
  apply IH.
Qed.

(** ** The loop, one document at a time *)

Section Loop.
Context {S : Type}.
Variable splitter : TextSplitter.
Variable vs : VectorStore S.
Variable ns : string.
Variable b : Z.

Local Abbreviation chunks := (tagged_chunks splitter ns).
Local Abbreviation loop := (ingest_loop splitter vs ns b).

Lemma ingest_loop_nil buf ids s : loop [] buf ids s = (Ok (buf, ids), s, []).
Proof. reflexivity. Qed.

(** An iteration that stays under the threshold. *)
Lemma ingest_loop_keep d rest buf ids s :
  len (buf ++ chunks d) < b ->
  loop (d :: rest) buf ids s
  = let '(r, s', t) := loop rest (buf ++ chunks d) ids s in
    (r, s', EvYield d :: EvSplit d :: t).
Proof.
  intros Hlt. simpl. unfold bind at 1 2. simpl.
  destruct (Z.geb_spec (len (buf ++ chunks d)) b) as [Hge|_]; [lia|].
  destruct (loop rest (buf ++ chunks d) ids s) as [[r s'] t].
  reflexivity.
Qed.

(** An iteration that flushes, and the store accepts. *)
Lemma ingest_loop_flush d rest buf ids s new s1 :
  b <= len (buf ++ chunks d) ->
  add_documents vs (buf ++ chunks d) s = (Ok new, s1) ->
  loop (d :: rest) buf ids s
  = let '(r, s', t) := loop rest [] (ids ++ new) s1 in
    (r, s', EvYield d :: EvSplit d :: EvAdd (buf ++ chunks d) (Ok new) :: t).
Proof.
  intros Hge Hadd. simpl. unfold bind at 1 2. simpl.
  destruct (Z.geb_spec (len (buf ++ chunks d)) b) as [_|Hlt]; [|lia].
  unfold bind, vs_add. rewrite Hadd.
  destruct (loop rest [] (ids ++ new) s1) as [[r s'] t].
  reflexivity.
Qed.

(** An iteration that flushes, and the store raises. *)
Lemma ingest_loop_raise d rest buf ids s e s1 :
  b <= len (buf ++ chunks d) ->
  add_documents vs (buf ++ chunks d) s = (Err e, s1) ->
  loop (d :: rest) buf ids s
  = (Err e, s1, [EvYield d; EvSplit d; EvAdd (buf ++ chunks d) (Err e)]).
Proof.
  intros Hge Hadd. simpl. unfold bind at 1 2. simpl.
  destruct (Z.geb_spec (len (buf ++ chunks d)) b) as [_|Hlt]; [|lia].
  unfold bind, vs_add. rewrite Hadd. reflexivity.
Qed.

(** The check after the loop. *)
Lemma final_flush_skip buf ids s :
  len buf < b ->
  final_flush vs b (buf, ids) s = (Ok ids, s, []).
Proof.
  intros Hlt. unfold final_flush.
  destruct (Z.geb_spec (len buf) b) as [Hge|_]; [lia|reflexivity].
Qed.

Lemma final_flush_accept buf ids s new s1 :
  b <= len buf ->
  add_documents vs buf s = (Ok new, s1) ->
  final_flush vs b (buf, ids) s = (Ok (ids ++ new), s1, [EvAdd buf (Ok new)]).
Proof.
  intros Hge Hadd. unfold final_flush.
  destruct (Z.geb_spec (len buf) b) as [_|Hlt]; [|lia].
  unfold bind, vs_add. rewrite Hadd. reflexivity.
Qed.

Lemma final_flush_raise buf ids s e s1 :
  b <= len buf ->
  add_documents vs buf s = (Err e, s1) ->
  final_flush vs b (buf, ids) s = (Err e, s1, [EvAdd buf (Err e)]).
Proof.
  intros Hge Hadd. unfold final_flush.
  destruct (Z.geb_spec (len buf) b) as [_|Hlt]; [|lia].
  unfold bind, vs_add. rewrite Hadd. reflexivity.
Qed.

(** [ingest_blob] is the parse, the loop and the final check, in sequence. *)
Lemma ingest_blob_run blob parser documents s :
  lazy_parse parser blob = Ok documents ->
  ingest_blob splitter vs ns b blob parser s
  = match loop documents [] [] s with
    | (Ok st, s1, t1) =>
        let '(r, s2, t2) := final_flush vs b st s1 in
        (r, s2, EvParse blob :: t1 ++ t2)
    | (Err e, s1, t1) => (Err e, s1, EvParse blob :: t1)
    end.
Proof.
  intros Hparse. unfold ingest_blob, bind at 1 2. simpl.
  rewrite Hparse. simpl. unfold bind.
  destruct (loop documents [] [] s) as [[[st|e] s1] t1]; [|reflexivity].
  destruct (final_flush vs b st s1) as [[r s2] t2]. reflexivity.
Qed.

Lemma ingest_blob_parse_error blob parser e s :
  lazy_parse parser blob = Err e ->
  ingest_blob splitter vs ns b blob parser s = (Err e, s, [EvParse blob]).
Proof.
  intros Hparse. unfold ingest_blob, bind at 1 2. simpl.
  rewrite Hparse. reflexivity.
Qed.

(** *** A proof rule for the loop

    [Inv done buf ids s t] relates the documents consumed so far, the
    current [docs_to_index] and [ids], the store and the calls made so far.
    If every kind of iteration preserves it, it holds when the loop ends;
    [Exc] is what holds when the store raises. *)

Section Invariant.
Variable documents : list Document.
Variable Inv : list Document -> list Document -> list string -> S -> trace -> Prop.
Variable Exc : exn -> S -> trace -> Prop.

Hypothesis Inv_keep : forall done d rest buf ids s t,
  documents = done ++ d :: rest ->
  Inv done buf ids s t ->
  len (buf ++ chunks d) < b ->
  Inv (done ++ [d]) (buf ++ chunks d) ids s (t ++ [EvYield d; EvSplit d]).

Hypothesis Inv_flush : forall done d rest buf ids s t new s1,
  documents = done ++ d :: rest ->
  Inv done buf ids s t ->
  b <= len (buf ++ chunks d) ->
  add_documents vs (buf ++ chunks d) s = (Ok new, s1) ->
  Inv (done ++ [d]) [] (ids ++ new) s1
      (t ++ [EvYield d; EvSplit d; EvAdd (buf ++ chunks d) (Ok new)]).

Hypothesis Exc_raise : forall done d rest buf ids s t e s1,
  documents = done ++ d :: rest ->
  Inv done buf ids s t ->
  b <= len (buf ++ chunks d) ->
  add_documents vs (buf ++ chunks d) s = (Err e, s1) ->
  Exc e s1 (t ++ [EvYield d; EvSplit d; EvAdd (buf ++ chunks d) (Err e)]).

Lemma ingest_loop_invariant rest :
  forall done buf ids s t,
    documents = done ++ rest ->
    Inv done buf ids s t ->
    match loop rest buf ids s with
    | (Ok (buf', ids'), s', t') => Inv documents buf' ids' s' (t ++ t')
    | (Err e, s', t') => Exc e s' (t ++ t')
    end.
Proof.
  induction rest as [|d rest IH]; intros done buf ids s t Hsplit HInv.
  - rewrite ingest_loop_nil, !app_nil_r in *. subst. exact HInv.
  - assert (Hsplit' : documents = (done ++ [d]) ++ rest)
      by (rewrite <- app_assoc; exact Hsplit).
    destruct (Z.lt_ge_cases (len (buf ++ chunks d)) b) as [Hlt|Hge].
    + rewrite ingest_loop_keep by exact Hlt.
      specialize (IH _ _ _ _ _ Hsplit' (Inv_keep _ _ _ _ _ _ _ Hsplit HInv Hlt)).
      destruct (loop rest (buf ++ chunks d) ids s) as [[[[buf' ids']|e] s'] t'];
        rewrite <- app_assoc in IH; exact IH.
    + destruct (add_documents vs (buf ++ chunks d) s) as [[new|e] s1] eqn:Hadd.
      * rewrite (ingest_loop_flush _ _ _ _ _ _ _ Hge Hadd).
        specialize (IH _ _ _ _ _ Hsplit'
                       (Inv_flush _ _ _ _ _ _ _ _ _ Hsplit HInv Hge Hadd)).
        destruct (loop rest [] (ids ++ new) s1) as [[[[buf' ids']|e] s'] t'];
          rewrite <- app_assoc in IH; exact IH.
      * rewrite (ingest_loop_raise _ _ _ _ _ _ _ Hge Hadd).
        eapply Exc_raise; eauto.
Qed.

End Invariant.

(** *** The invariant of the loop *)

Lemma tagged_chunks_carry d : Forall (carries_namespace ns) (chunks d).
Proof.
  unfold tagged_chunks. apply Forall_map, Forall_forall. intros doc _.
  unfold carries_namespace. simpl. apply lookup_insert_eq.
Qed.

Lemma all_chunks_snoc done d :
  all_chunks splitter ns (done ++ [d]) = all_chunks splitter ns done ++ chunks d.
Proof. unfold all_chunks. rewrite flat_map_app. simpl. rewrite app_nil_r. reflexivity. Qed.

Lemma ingest_loop_facts documents s0 :
  match loop documents [] [] s0 with
  | (Ok (buf, ids), s, t) => loop_inv splitter vs ns b s0 documents buf ids s t
  | (Err e, s, t) => loop_exc vs ns b s0 e s t
  end.
Proof.
  refine (ingest_loop_invariant documents
            (loop_inv splitter vs ns b s0) (loop_exc vs ns b s0)
            _ _ _ documents [] [] [] s0 [] eq_refl _).
  - (* under the threshold *)
    intros done d rest buf ids s t _ (Hsz & Htag & Hbuf & Hpart & Hids & Hst & Hacc & Hlt) Hkeep.
    unfold loop_inv.
    rewrite add_calls_app, returned_ids_app, all_chunks_snoc; simpl.
    rewrite !app_nil_r, app_assoc, Hpart.
    repeat split; auto.
    + apply Forall_app; split; [exact Hbuf|apply tagged_chunks_carry].
    + apply Forall_app; split; [exact Hacc|repeat constructor].
  - (* flush *)
    intros done d rest buf ids s t new s1 _
           (Hsz & Htag & Hbuf & Hpart & Hids & Hst & Hacc & Hlt) Hge Hadd.
    unfold loop_inv.
    rewrite add_calls_app, returned_ids_app, all_chunks_snoc; simpl.
    rewrite replay_snoc, <- Hst, Hadd, !concat_app; simpl.
    rewrite !app_nil_r, app_assoc, Hpart.
    assert (Hcarry : Forall (carries_namespace ns) (buf ++ chunks d))
      by (apply Forall_app; split; [exact Hbuf|apply tagged_chunks_carry]).
    repeat split; auto.
    + apply Forall_app; split; [exact Hsz|repeat constructor; exact Hge].
    + apply Forall_app; split; [exact Htag|repeat constructor; exact Hcarry].
    + rewrite Hids. reflexivity.
    + apply Forall_app; split; [exact Hacc|repeat constructor].
    + intros Hpos. unfold len. simpl. lia.
  - (* the store raises *)
    intros done d rest buf ids s t e s1 _
           (Hsz & Htag & Hbuf & Hpart & Hids & Hst & Hacc & Hlt) Hge Hadd.
    unfold loop_exc.
    rewrite add_calls_app; simpl. rewrite replay_snoc, <- Hst, Hadd; simpl.
    repeat split.
    + apply Forall_app; split; [exact Hsz|repeat constructor; exact Hge].
    + apply Forall_app; split; [exact Htag|repeat constructor].
      apply Forall_app; split; [exact Hbuf|apply tagged_chunks_carry].
    + exists (t ++ [EvYield d; EvSplit d]), (buf ++ chunks d).
      rewrite <- app_assoc. split; [reflexivity|].
      apply Forall_app; split; [exact Hacc|repeat constructor].
  - (* initially *)
    unfold loop_inv, all_chunks; simpl.
    repeat split; auto; try constructor.
    intros Hpos. unfold len. simpl. lia.
Qed.

End Loop.

(** ** Whole runs of [ingest_blob] *)

Lemma add_calls_idle documents : add_calls (idle_trace documents) = [].
Proof. induction documents as [|d rest IH]; [reflexivity|exact IH]. Qed.

(** The first refused call of a trace is where it is. *)
Lemma first_refusal (u t1 t2 : trace) (x y : event) :
  Forall accepted u -> ~ accepted y ->
  u ++ [x] = t1 ++ y :: t2 ->
  u = t1 /\ x = y /\ t2 = [].
Proof.
  revert t1. induction u as [|a u IH]; intros t1 Hu Hy Heq.
  - destruct t1 as [|a1 t1]; simpl in Heq.
    + injection Heq as -> <-. auto.
    + injection Heq as _ Heq. destruct t1; discriminate.
  - destruct t1 as [|a1 t1]; simpl in Heq.
    + injection Heq as -> _. inversion Hu; subst. contradiction.
    + injection Heq as -> Heq. inversion Hu; subst.
      destruct (IH t1) as (-> & -> & ->); auto.
Qed.

Section Runs.
Context {S : Type}.
Variable splitter : TextSplitter.
Variable vs : VectorStore S.
Variable ns : string.
Variable b : Z.

Local Abbreviation chunks := (tagged_chunks splitter ns).
Local Abbreviation loop := (ingest_loop splitter vs ns b).
Local Abbreviation count := (chunk_count splitter ns).

Lemma chunk_count_app l1 l2 : count (l1 ++ l2) = count l1 + count l2.
Proof. unfold chunk_count, all_chunks. rewrite flat_map_app. apply len_app. Qed.

Lemma chunk_count_cons d l : count (d :: l) = len (chunks d) + count l.
Proof. unfold chunk_count, all_chunks. simpl. apply len_app. Qed.

Lemma chunk_count_snoc l d : count (l ++ [d]) = count l + len (chunks d).
Proof.
  rewrite chunk_count_app, chunk_count_cons.
  unfold chunk_count, all_chunks, len. simpl. lia.
Qed.

Lemma chunk_count_nonneg l : 0 <= count l.
Proof. apply len_nonneg. Qed.

Lemma chunk_count_take n l : count (take n l) <= count l.
Proof.
  rewrite <- (take_drop n l) at 2. rewrite chunk_count_app.
  pose proof (chunk_count_nonneg (drop n l)). lia.
Qed.

(** While the chunks stay under the threshold nothing is sent. *)
Lemma ingest_loop_idle documents :
  forall buf ids s,
    len buf + count documents < b ->
    loop documents buf ids s
    = (Ok (buf ++ all_chunks splitter ns documents, ids), s, idle_trace documents).
Proof.
  induction documents as [|d rest IH]; intros buf ids s Hlt.
  - rewrite ingest_loop_nil. unfold all_chunks. simpl. rewrite app_nil_r. reflexivity.
  - rewrite chunk_count_cons in Hlt. pose proof (chunk_count_nonneg rest).
    rewrite ingest_loop_keep by (rewrite len_app; lia).
    rewrite IH by (rewrite len_app; lia).
    unfold all_chunks. simpl. rewrite app_assoc. reflexivity.
Qed.

(** Every batch of a run has reached the threshold and is tagged. *)
Lemma ingest_blob_calls blob parser s :
  Forall (fun batch => b <= len batch)
         (add_calls (ingest_blob splitter vs ns b blob parser s).2)
  /\ Forall (Forall (carries_namespace ns))
            (add_calls (ingest_blob splitter vs ns b blob parser s).2).
Proof.
  destruct (lazy_parse parser blob) as [documents|e] eqn:Hparse.
  2:{ rewrite (ingest_blob_parse_error _ _ _ _ _ _ e s Hparse). simpl. auto. }
  rewrite (ingest_blob_run _ _ _ _ _ _ documents s Hparse).
  pose proof (ingest_loop_facts splitter vs ns b documents s) as Hfacts.
  destruct (loop documents [] [] s) as [[[[buf ids]|e] s1] t1]; cbv beta iota.
  - destruct Hfacts as (Hsz & Htag & Hbuf & _).
    destruct (Z.lt_ge_cases (len buf) b) as [Hlt|Hge].
    + rewrite final_flush_skip by exact Hlt. simpl. rewrite app_nil_r. auto.
    + destruct (add_documents vs buf s1) as [[new|e] s2] eqn:Hadd.
      * rewrite (final_flush_accept _ _ _ _ _ _ _ Hge Hadd). simpl.
        rewrite add_calls_app. simpl.
        split; apply Forall_app; split; auto.
      * rewrite (final_flush_raise _ _ _ _ _ _ _ Hge Hadd). simpl.
        rewrite add_calls_app. simpl.
        split; apply Forall_app; split; auto.
  - destruct Hfacts as (Hsz & Htag & _). auto.
Qed.

(** How a run ends: the store is in the state its calls left it in; a run
    that returns had every call accepted and returns the identifiers of its
    calls; a run that raises stopped at the parser or at the first call the
    store refused. *)
Lemma ingest_blob_outcome blob parser s :
  match ingest_blob splitter vs ns b blob parser s with
  | (Ok ids, s', t) =>
      s' = replay vs (add_calls t) s
      /\ Forall accepted t /\ ids = List.concat (returned_ids t)
  | (Err e, s', t) =>
      s' = replay vs (add_calls t) s
      /\ ((lazy_parse parser blob = Err e /\ t = [EvParse blob])
          \/ exists t1 batch,
               t = t1 ++ [EvAdd batch (Err e)] /\ Forall accepted t1)
  end.
Proof.
  destruct (lazy_parse parser blob) as [documents|e] eqn:Hparse.
  2:{ rewrite (ingest_blob_parse_error _ _ _ _ _ _ e s Hparse). simpl. auto. }
  rewrite (ingest_blob_run _ _ _ _ _ _ documents s Hparse).
  pose proof (ingest_loop_facts splitter vs ns b documents s) as Hfacts.
  destruct (loop documents [] [] s) as [[[[buf ids]|e] s1] t1]; cbv beta iota.
  - destruct Hfacts as (_ & _ & _ & _ & Hids & Hst & Hacc & _).
    destruct (Z.lt_ge_cases (len buf) b) as [Hlt|Hge].
    + rewrite final_flush_skip by exact Hlt. simpl. rewrite app_nil_r.
      repeat split; auto. constructor; [exact I|exact Hacc].
    + destruct (add_documents vs buf s1) as [[new|e] s2] eqn:Hadd.
      * rewrite (final_flush_accept _ _ _ _ _ _ _ Hge Hadd).
        cbn [add_calls returned_ids].
        rewrite add_calls_app, returned_ids_app. cbn [add_calls returned_ids].
        rewrite replay_snoc, <- Hst, Hadd.
        simpl. rewrite concat_app, Hids. simpl. rewrite app_nil_r.
        repeat split; auto.
        constructor; [exact I|]. apply Forall_app; split; [exact Hacc|].
        repeat constructor.
      * rewrite (final_flush_raise _ _ _ _ _ _ _ Hge Hadd).
        cbn [add_calls]. rewrite add_calls_app. cbn [add_calls].
        rewrite replay_snoc, <- Hst, Hadd. simpl.
        split; [reflexivity|]. right.
        exists (EvParse blob :: t1), buf. split; [reflexivity|].
        constructor; [exact I|exact Hacc].
  - destruct Hfacts as (_ & _ & Hst & t0 & batch & -> & Hacc).
    split; [exact Hst|]. right.
    exists (EvParse blob :: t0), batch. split; [reflexivity|].
    constructor; [exact I|exact Hacc].
Qed.

End Runs.

(** * The claims *)

(** C1. If, once the last document has been processed, the pending buffer
    holds a positive number of chunks that is smaller than [batch_size],
    [ingest_blob] makes no further call to [add_documents]: the run is the
    loop and nothing else, the chunks of the buffer are exactly the chunks
    that follow the ones that were sent, and the identifiers returned are
    those of the calls made in the loop. *)
Theorem trailing_partial_batch_dropped {S} (splitter : TextSplitter)
    (vs : VectorStore S) (ns : string) (b : Z) (blob : Blob)
    (parser : BaseBlobParser) (documents buf : list Document)
    (ids : list string) (s s1 : S) (t1 : trace) :
  lazy_parse parser blob = Ok documents ->
  ingest_loop splitter vs ns b documents [] [] s = (Ok (buf, ids), s1, t1) ->
  0 < len buf < b ->
  ingest_blob splitter vs ns b blob parser s = (Ok ids, s1, EvParse blob :: t1)
  /\ add_calls (EvParse blob :: t1) = add_calls t1
  /\ List.concat (add_calls t1) ++ buf = all_chunks splitter ns documents
  /\ ids = List.concat (returned_ids t1).
Proof.
  intros Hparse Hloop [Hpos Hlt].
  pose proof (ingest_loop_facts splitter vs ns b documents s) as Hfacts.
  rewrite Hloop in Hfacts.
  destruct Hfacts as (_ & _ & _ & Hpart & Hids & _).
  rewrite (ingest_blob_run _ _ _ _ _ _ documents s Hparse), Hloop.
  rewrite final_flush_skip by exact Hlt. rewrite app_nil_r.
  repeat split; auto.
Qed.

Lemma trailing_partial_batch_dropped_witness :
  let splitter := Examples.length_splitter 1 in
  let documents := [Examples.doc "ab"; Examples.doc "c"] in
  ingest_blob splitter Examples.in_memory "ns" 2 Examples.blank
              (Examples.yields documents) []
  = (Ok [""; "i"], all_chunks splitter "ns" [Examples.doc "ab"],
     EvParse Examples.blank
       :: snd (ingest_loop splitter Examples.in_memory "ns" 2 documents [] [] []))
  /\ List.concat
       (add_calls
          (snd (ingest_loop splitter Examples.in_memory "ns" 2 documents [] [] [])))
     ++ all_chunks splitter "ns" [Examples.doc "c"]
     = all_chunks splitter "ns" documents.
Proof.
  intros splitter documents.
  destruct (trailing_partial_batch_dropped splitter Examples.in_memory "ns" 2
              Examples.blank (Examples.yields documents) documents
              (all_chunks splitter "ns" [Examples.doc "c"]) [""; "i"] []
              (all_chunks splitter "ns" [Examples.doc "ab"])
              (snd (ingest_loop splitter Examples.in_memory "ns" 2 documents [] [] [])))
    as (Hrun & _ & Hpart & _).
  - reflexivity.
  - vm_compute. reflexivity.
  - vm_compute. split; reflexivity.
  - split; [exact Hrun|exact Hpart].
Defined.

(** C2. With an empty namespace (which is also the default of the field)
    [invoke] raises [ValueError] at once: nothing is decoded, detected,
    parsed or split, [add_documents] is not called and the store is left as
    it was. *)
Theorem invoke_requires_namespace {S} (rt : Runtime) (lib : ParserLibrary)
    (self : IngestRunnable S) (input : gmap string string) (s : S) :
  namespace self = "" ->
  invoke rt lib self input s
  = (Err (ValueError "namespace must be provided"), s, [])
  /\ default_namespace = "".
Proof.
  intros Hns. unfold invoke. rewrite Hns. split; reflexivity.
Qed.

Lemma invoke_requires_namespace_witness :
  invoke Examples.text_runtime Examples.text_only
         (mkIngestRunnable (Examples.length_splitter 4000) Examples.in_memory
                           "file_contents" default_namespace)
         {["base64_file" := Examples.test_file]} []
  = (Err (ValueError "namespace must be provided"), [], []).
Proof.
  apply (invoke_requires_namespace Examples.text_runtime Examples.text_only
           (mkIngestRunnable (Examples.length_splitter 4000) Examples.in_memory
                             "file_contents" default_namespace)).
  reflexivity.
Defined.

(** C3. With a non-empty namespace, every document of every batch that
    [ingest_blob] hands to [add_documents] has the metadata field
    [namespace] equal to the namespace of the call, whatever the splitter
    had put there, and this value is not empty. *)
Theorem persisted_chunks_carry_namespace {S} (splitter : TextSplitter)
    (vs : VectorStore S) (ns : string) (b : Z) (blob : Blob)
    (parser : BaseBlobParser) (s : S) :
  ns <> "" ->
  Forall (Forall (fun doc => metadata doc !! "namespace" = Some ns /\ ns <> ""))
         (add_calls (ingest_blob splitter vs ns b blob parser s).2).
Proof.
  intros Hne.
  destruct (ingest_blob_calls splitter vs ns b blob parser s) as [_ Htag].
  eapply Forall_impl; [exact Htag|].
  intros batch Hbatch. eapply Forall_impl; [exact Hbatch|].
  intros doc Hdoc. split; [exact Hdoc|exact Hne].
Qed.

Lemma persisted_chunks_carry_namespace_witness :
  let intrinsic := mkDocument "abc" {["namespace" := "intrinsic"]} in
  Forall (Forall (fun doc => metadata doc !! "namespace" = Some "test1"
                             /\ "test1" <> ""))
         (add_calls (ingest_blob (Examples.length_splitter 1) Examples.in_memory
                                 "test1" 2 Examples.blank
                                 (Examples.yields [intrinsic]) []).2)
  /\ List.length
       (add_calls (ingest_blob (Examples.length_splitter 1) Examples.in_memory
                               "test1" 2 Examples.blank
                               (Examples.yields [intrinsic]) []).2) = 1%nat.
Proof.
  intros intrinsic. split.
  - apply (persisted_chunks_carry_namespace (Examples.length_splitter 1)
             Examples.in_memory "test1" 2 Examples.blank
             (Examples.yields [intrinsic]) []).
    discriminate.
  - reflexivity.
Defined.

(** C9. Without the [magic] module, [_guess_mimetype] raises [ImportError]
    for every byte input: no mime type comes back, the detector is not
    called, and the message names the missing package and the command that
    installs it. *)
Theorem guess_mimetype_without_magic {S} (rt : Runtime)
    (file_bytes : list byte) (s : S) :
  magic rt = None ->
  _guess_mimetype rt file_bytes s = (Err (ImportError magic_not_found), s, [])
  /\ contains "magic package not found" magic_not_found = true
  /\ contains "pip install python-magic" magic_not_found = true.
Proof.
  intros Hmagic. unfold _guess_mimetype. rewrite Hmagic.
  repeat split; reflexivity.
Qed.

Lemma guess_mimetype_without_magic_witness :
  @_guess_mimetype (list Document) Examples.bare_runtime
                   (list_byte_of_string "%PDF-1.7") []
  = (Err (ImportError magic_not_found), [], []).
Proof.
  apply (guess_mimetype_without_magic Examples.bare_runtime
           (list_byte_of_string "%PDF-1.7") []).
  reflexivity.
Defined.

(** C10. Every batch that [ingest_blob] hands to [add_documents] holds at
    least [batch_size] documents; and a batch can hold more: a single
    document that splits into three chunks is sent as one batch of three
    when [batch_size] is two. *)
Theorem batches_reach_threshold_uncapped :
  (forall S (splitter : TextSplitter) (vs : VectorStore S) (ns : string)
          (b : Z) (blob : Blob) (parser : BaseBlobParser) (s : S),
      Forall (fun batch => b <= len batch)
             (add_calls (ingest_blob splitter vs ns b blob parser s).2))
  /\ (let run := ingest_blob (Examples.length_splitter 1) Examples.in_memory
                             "ns" 2 Examples.blank
                             (Examples.yields [Examples.doc "abc"]) [] in
      map len (add_calls run.2) = [3] /\ 2 < 3).
Proof.
  split.
  - intros S splitter vs ns b blob parser s.
    apply (ingest_blob_calls splitter vs ns b blob parser s).
  - split; [reflexivity|lia].
Qed.

(** ** [aingest_blob] *)

Lemma aingest_loop_idle {S} (splitter : TextSplitter) (vs : VectorStore S)
    (ns : string) (b : Z) (documents : list Document) :
  1 <= b ->
  forall ids s,
    aingest_loop splitter vs ns b documents [] ids s
    = (Ok ([], ids), s, idle_trace documents).
Proof.
  intros Hb. induction documents as [|d rest IH]; intros ids s; [reflexivity|].
  simpl. unfold bind at 1 2. simpl.
  destruct (Z.geb_spec (len (@nil Document)) b) as [Hge|_];
    [unfold len in Hge; simpl in Hge; lia|].
  rewrite IH. reflexivity.
Qed.

(** C5. [aingest_blob] never adds the chunks of a document to its pending
    buffer: after any number of documents the buffer is still empty, so with
    [batch_size >= 1] no threshold check succeeds, [add_documents] is never
    called, the store is untouched and the empty list is returned. *)
Theorem aingest_blob_persists_nothing {S} (splitter : TextSplitter)
    (vs : VectorStore S) (ns : string) (b : Z) (blob : Blob)
    (parser : BaseBlobParser) (documents : list Document) (s : S) :
  1 <= b ->
  lazy_parse parser blob = Ok documents ->
  (forall n,
      aingest_loop splitter vs ns b (take n documents) [] [] s
      = (Ok ([], []), s, idle_trace (take n documents)))
  /\ aingest_blob splitter vs ns b blob parser s
     = (Ok [], s, EvParse blob :: idle_trace documents)
  /\ add_calls (EvParse blob :: idle_trace documents) = [].
Proof.
  intros Hb Hparse. split; [|split].
  - intros n. apply aingest_loop_idle. exact Hb.
  - unfold aingest_blob, bind at 1 2. simpl. rewrite Hparse. simpl.
    unfold bind. rewrite aingest_loop_idle by exact Hb.
    rewrite final_flush_skip by (unfold len; simpl; lia).
    rewrite app_nil_r. reflexivity.
  - simpl. apply add_calls_idle.
Qed.

Lemma aingest_blob_persists_nothing_witness :
  let documents := [Examples.doc "abc"; Examples.doc "de"] in
  aingest_blob (Examples.length_splitter 1) Examples.in_memory "ns" 2
               Examples.blank (Examples.yields documents) []
  = (Ok [], [], EvParse Examples.blank :: idle_trace documents).
Proof.
  intros documents.
  apply (aingest_blob_persists_nothing (Examples.length_splitter 1)
           Examples.in_memory "ns" 2 Examples.blank
           (Examples.yields documents) documents []).
  - lia.
  - reflexivity.
Defined.

(** C7. If a call to [add_documents] raises [e], the run of [ingest_blob]
    ends there: the caller gets [e] and no identifier list, the refused call
    is the last event of the run (no document is taken from the parser
    after it, nothing is split after it, the call is not made again), and
    the store is in the state that the refused call left it in after the
    earlier calls, which are not undone. *)
Theorem add_failure_propagates {S} (splitter : TextSplitter)
    (vs : VectorStore S) (ns : string) (b : Z) (blob : Blob)
    (parser : BaseBlobParser) (s s' : S) (r : result (list string))
    (t t1 t2 : trace) (batch : list Document) (e : exn) :
  ingest_blob splitter vs ns b blob parser s = (r, s', t) ->
  t = t1 ++ EvAdd batch (Err e) :: t2 ->
  r = Err e
  /\ t2 = []
  /\ s' = (add_documents vs batch (replay vs (add_calls t1) s)).2
  /\ Forall accepted t1.
Proof.
  intros Hrun Ht.
  pose proof (ingest_blob_outcome splitter vs ns b blob parser s) as Hout.
  rewrite Hrun in Hout.
  assert (Hrefused : ~ accepted (EvAdd batch (Err e))) by (intros []).
  destruct r as [ids|e'].
  - destruct Hout as (_ & Hacc & _). subst t.
    apply Forall_app in Hacc as [_ Hacc]. inversion Hacc; subst. contradiction.
  - destruct Hout as (Hst & [[_ Hparse]|(u & batch' & Hu & Hacc)]).
    + subst t. destruct t1 as [|ev t1]; [discriminate|].
      injection Hparse as _ Hnil. destruct t1; discriminate.
    + rewrite Hu in Ht.
      destruct (first_refusal _ _ _ _ _ Hacc Hrefused Ht) as (-> & Hev & ->).
      injection Hev as -> ->.
      rewrite Hu, add_calls_app in Hst. simpl in Hst.
      rewrite replay_snoc in Hst. auto.
Qed.

Lemma add_failure_propagates_witness :
  let splitter := Examples.length_splitter 1 in
  let documents := [Examples.doc "ab"; Examples.doc "cd"; Examples.doc "ef"] in
  let first := all_chunks splitter "ns" [Examples.doc "ab"] in
  let second := all_chunks splitter "ns" [Examples.doc "cd"] in
  let e := ExternalError "store is full" in
  ingest_blob splitter (Examples.bounded 3) "ns" 2 Examples.blank
              (Examples.yields documents) []
  = (Err e, first,
     [EvParse Examples.blank;
      EvYield (Examples.doc "ab"); EvSplit (Examples.doc "ab");
      EvAdd first (Ok [""; "i"]);
      EvYield (Examples.doc "cd"); EvSplit (Examples.doc "cd");
      EvAdd second (Err e)])
  /\ (Err e : result (list string)) = Err e
  /\ first = (add_documents (Examples.bounded 3) second
                (replay (Examples.bounded 3) [first] [])).2.
Proof.
  intros splitter documents first second e.
  assert (Hrun :
    ingest_blob splitter (Examples.bounded 3) "ns" 2 Examples.blank
                (Examples.yields documents) []
    = (Err e, first,
       [EvParse Examples.blank;
        EvYield (Examples.doc "ab"); EvSplit (Examples.doc "ab");
        EvAdd first (Ok [""; "i"]);
        EvYield (Examples.doc "cd"); EvSplit (Examples.doc "cd");
        EvAdd second (Err e)] ++ [])) by (vm_compute; reflexivity).
  destruct (add_failure_propagates splitter (Examples.bounded 3) "ns" 2
              Examples.blank (Examples.yields documents) [] first (Err e)
              _ [EvParse Examples.blank;
                 EvYield (Examples.doc "ab"); EvSplit (Examples.doc "ab");
                 EvAdd first (Ok [""; "i"]);
                 EvYield (Examples.doc "cd"); EvSplit (Examples.doc "cd")]
              [] second e Hrun eq_refl) as (Hr & _ & Hst & _).
  split; [|split].
  - rewrite app_nil_r in Hrun. exact Hrun.
  - exact Hr.
  - exact Hst.
Defined.

(** ** Batches of exactly [batch_size] *)

(** C4, as stated, fails: two documents of one and three chunks make
    [2 * 2] chunks, and they are sent in one batch of four; and with
    [batch_size = 0] an empty input, which has [2 * 0] chunks, is sent in
    one (empty) batch. *)
Lemma exact_batches_counterexample :
  (let splitter := Examples.length_splitter 1 in
   let documents := [Examples.doc "a"; Examples.doc "bcd"] in
   let run := ingest_blob splitter Examples.in_memory "ns" 2 Examples.blank
                          (Examples.yields documents) [] in
   chunk_count splitter "ns" documents = 2 * 2
   /\ map len (add_calls run.2) = [4]
   /\ ~ sent_in_batches_of 2 2 run.2)
  /\ (let splitter := Examples.length_splitter 1 in
      let run := ingest_blob splitter Examples.in_memory "ns" 0 Examples.blank
                             (Examples.yields []) [] in
      chunk_count splitter "ns" [] = 2 * 0
      /\ map len (add_calls run.2) = [0]
      /\ ~ sent_in_batches_of 0 2 run.2).
Proof.
  split; (split; [reflexivity|split; [reflexivity|]]);
    intros [Hk _]; vm_compute in Hk; discriminate.
Qed.

(** C4, amended.  Let [batch_size >= 1], let the store accept every batch,
    and let the chunks number [k * batch_size] in such a way that every
    multiple [j * batch_size], [1 <= j <= k], is the number of chunks of the
    first [n] documents for some [n] (batch boundaries fall on document
    boundaries; this is so when every document is one chunk).  Then
    [ingest_blob] returns, having made exactly [k] calls to
    [add_documents], each with exactly [batch_size] documents. *)
Theorem exact_batches_when_aligned {S} (splitter : TextSplitter)
    (vs : VectorStore S) (ns : string) (b k : Z) (blob : Blob)
    (parser : BaseBlobParser) (documents : list Document) (s : S) :
  1 <= b -> 1 <= k ->
  never_raises vs ->
  lazy_parse parser blob = Ok documents ->
  chunk_count splitter ns documents = k * b ->
  (forall j, 1 <= j <= k ->
     exists n, chunk_count splitter ns (take n documents) = j * b) ->
  exists ids s' t,
    ingest_blob splitter vs ns b blob parser s = (Ok ids, s', t)
    /\ sent_in_batches_of b k t.
Proof.
  intros Hb Hk Hstore Hparse Htotal Haligned.
  set (Inv := fun (done buf : list Document) (_ : list string) (_ : S)
                  (t : trace) =>
    len buf < b
    /\ Forall (fun batch => len batch = b) (add_calls t)
    /\ len (add_calls t) * b + len buf = chunk_count splitter ns done).
  assert (Hloop :
    match ingest_loop splitter vs ns b documents [] [] s with
    | (Ok (buf, ids), s', t) => Inv documents buf ids s' t
    | (Err e, s', t) => False
    end).
  { refine (ingest_loop_invariant splitter vs ns b documents Inv
              (fun _ _ _ => False) _ _ _ documents [] [] [] s [] eq_refl _).
    - intros done d rest buf ids s1 t _ (Hlt & Hall & Hcount) Hkeep.
      unfold Inv. rewrite add_calls_app. simpl. rewrite app_nil_r.
      repeat split; auto.
      rewrite chunk_count_snoc, len_app. lia.
    - intros done d rest buf ids s1 t new s2 Hsplit (Hlt & Hall & Hcount) Hge Hadd.
      assert (Hexact : len (buf ++ tagged_chunks splitter ns d) = b).
      { set (m := len (add_calls t)) in *.
        assert (Hm : 0 <= m) by apply len_nonneg.
        assert (Hdone : chunk_count splitter ns (done ++ [d])
                        = m * b + len (buf ++ tagged_chunks splitter ns d)).
        { rewrite chunk_count_snoc, len_app. lia. }
        assert (Hle : chunk_count splitter ns (done ++ [d]) <= k * b).
        { rewrite <- Htotal, Hsplit.
          replace (done ++ d :: rest) with ((done ++ [d]) ++ rest)
            by (rewrite <- app_assoc; reflexivity).
          rewrite (chunk_count_app _ _ (done ++ [d]) rest).
          pose proof (chunk_count_nonneg splitter ns rest). lia. }
        assert (Hj : 1 <= m + 1 <= k) by nia.
        destruct (Haligned (m + 1) Hj) as [n Hn].
        destruct (Nat.le_gt_cases n (List.length done)) as [Hshort|Hlong].
        - exfalso. rewrite Hsplit, take_app_le in Hn by exact Hshort.
          pose proof (chunk_count_take splitter ns n done). lia.
        - assert (Htake : take n documents
                          = (done ++ [d]) ++ take (n - List.length (done ++ [d])) rest).
          { rewrite Hsplit.
            replace (done ++ d :: rest) with ((done ++ [d]) ++ rest)
              by (rewrite <- app_assoc; reflexivity).
            apply take_app_ge. rewrite length_app. simpl. lia. }
          rewrite Htake, chunk_count_app in Hn.
          pose proof (chunk_count_nonneg splitter ns
                        (take (n - List.length (done ++ [d])) rest)).
          lia. }
      unfold Inv. rewrite add_calls_app. simpl.
      repeat split.
      + unfold len. simpl. lia.
      + apply Forall_app; split; [exact Hall|repeat constructor; exact Hexact].
      + rewrite len_app, chunk_count_snoc.
        rewrite len_app in Hexact.
        change (len [buf ++ tagged_chunks splitter ns d]) with 1.
        change (len (@nil Document)) with 0. lia.
    - intros done d rest buf ids s1 t e s2 _ _ _ Hadd.
      destruct (Hstore (buf ++ tagged_chunks splitter ns d) s1) as [new Hnew].
      rewrite Hadd in Hnew. discriminate.
    - unfold Inv, chunk_count, all_chunks, len. simpl. repeat split; [lia|constructor]. }
  rewrite (ingest_blob_run _ _ _ _ _ _ documents s Hparse).
  destruct (ingest_loop splitter vs ns b documents [] [] s)
    as [[[[buf ids]|e] s1] t1]; [|contradiction].
  destruct Hloop as (Hlt & Hall & Hcount).
  rewrite final_flush_skip by exact Hlt.
  exists ids, s1, (EvParse blob :: t1 ++ []).
  split; [reflexivity|].
  rewrite app_nil_r. unfold sent_in_batches_of. simpl.
  split; [|exact Hall].
  pose proof (len_nonneg buf). pose proof (len_nonneg (add_calls t1)). nia.
Qed.

Lemma exact_batches_when_aligned_witness :
  let splitter := Examples.length_splitter 1 in
  let documents := [Examples.doc "ab"; Examples.doc "c"; Examples.doc "d"] in
  exists ids s' t,
    ingest_blob splitter Examples.in_memory "ns" 2 Examples.blank
                (Examples.yields documents) [] = (Ok ids, s', t)
    /\ sent_in_batches_of 2 2 t.
Proof.
  intros splitter documents.
  apply (exact_batches_when_aligned splitter Examples.in_memory "ns" 2 2
           Examples.blank (Examples.yields documents) documents []).
  - lia.
  - lia.
  - intros batch s. eexists. reflexivity.
  - reflexivity.
  - vm_compute. reflexivity.
  - intros j Hj.
    assert (Hcases : j = 1 \/ j = 2) by lia.
    destruct Hcases as [-> | ->].
    + exists 1%nat. vm_compute. reflexivity.
    + exists 3%nat. vm_compute. reflexivity.
Defined.

(** ** The loop and its description *)

Section Refinement.
Context {S : Type}.
Variable splitter : TextSplitter.
Variable vs : VectorStore S.
Variable ns : string.
Variable b : Z.

Local Abbreviation chunks := (tagged_chunks splitter ns).
Local Abbreviation described := (flush_when_full splitter vs ns b).

Lemma flush_when_full_keep d rest buf ids s :
  len (buf ++ chunks d) < b ->
  described (d :: rest) buf ids s
  = let '(r, s', t) := described rest (buf ++ chunks d) ids s in
    (r, s', EvYield d :: EvSplit d :: t).
Proof.
  intros Hlt. simpl. unfold bind at 1 2. simpl.
  destruct (Z.geb_spec (len (buf ++ chunks d)) b) as [Hge|_]; [lia|].
  destruct (described rest (buf ++ chunks d) ids s) as [[r s'] t].
  reflexivity.
Qed.

Lemma flush_when_full_flush d rest buf ids s new s1 :
  b <= len (buf ++ chunks d) ->
  add_documents vs (buf ++ chunks d) s = (Ok new, s1) ->
  described (d :: rest) buf ids s
  = let '(r, s', t) := described rest [] (ids ++ new) s1 in
    (r, s', EvYield d :: EvSplit d :: EvAdd (buf ++ chunks d) (Ok new) :: t).
Proof.
  intros Hge Hadd. simpl. unfold bind at 1 2. simpl.
  destruct (Z.geb_spec (len (buf ++ chunks d)) b) as [_|Hlt]; [|lia].
  unfold bind, vs_add. rewrite Hadd.
  destruct (described rest [] (ids ++ new) s1) as [[r s'] t].
  reflexivity.
Qed.

Lemma flush_when_full_raise d rest buf ids s e s1 :
  b <= len (buf ++ chunks d) ->
  add_documents vs (buf ++ chunks d) s = (Err e, s1) ->
  described (d :: rest) buf ids s
  = (Err e, s1, [EvYield d; EvSplit d; EvAdd (buf ++ chunks d) (Err e)]).
Proof.
  intros Hge Hadd. simpl. unfold bind at 1 2. simpl.
  destruct (Z.geb_spec (len (buf ++ chunks d)) b) as [_|Hlt]; [|lia].
  unfold bind, vs_add. rewrite Hadd. reflexivity.
Qed.

(** With [batch_size >= 1] the check after the loop never succeeds: the
    loop followed by the check is the described loop. *)
Lemma ingest_loop_then_check documents :
  1 <= b ->
  forall buf ids s,
    len buf < b ->
    bind (ingest_loop splitter vs ns b documents buf ids) (final_flush vs b) s
    = described documents buf ids s.
Proof.
  intros Hb. induction documents as [|d rest IH]; intros buf ids s Hlt.
  - unfold bind. rewrite ingest_loop_nil, final_flush_skip by exact Hlt.
    reflexivity.
  - unfold bind in *.
    destruct (Z.lt_ge_cases (len (buf ++ chunks d)) b) as [Hkeep|Hge].
    + rewrite ingest_loop_keep, flush_when_full_keep by exact Hkeep.
      rewrite <- (IH _ ids s Hkeep).
      destruct (ingest_loop splitter vs ns b rest (buf ++ chunks d) ids s)
        as [[[st|e] s2] t2]; [|reflexivity].
      destruct (final_flush vs b st s2) as [[r s3] t3]. reflexivity.
    + destruct (add_documents vs (buf ++ chunks d) s) as [[new|e] s1] eqn:Hadd.
      * rewrite (ingest_loop_flush _ _ _ _ _ _ _ _ _ _ _ Hge Hadd).
        rewrite (flush_when_full_flush _ _ _ _ _ _ _ Hge Hadd).
        rewrite <- (IH [] (ids ++ new) s1) by (unfold len; simpl; lia).
        destruct (ingest_loop splitter vs ns b rest [] (ids ++ new) s1)
          as [[[st|e] s2] t2]; [|reflexivity].
        destruct (final_flush vs b st s2) as [[r s3] t3]. reflexivity.
      * rewrite (ingest_loop_raise _ _ _ _ _ _ _ _ _ _ _ Hge Hadd).
        rewrite (flush_when_full_raise _ _ _ _ _ _ _ Hge Hadd).
        reflexivity.
Qed.

End Refinement.

(** C6, as stated, fails: with [batch_size = 0] and no document at all,
    [ingest_blob] still calls [add_documents] once (with the empty buffer,
    in the check after the loop), although no document was processed and
    nothing was appended; the described ingester makes no call. *)
Lemma flush_without_document_counterexample :
  let run := ingest_blob (Examples.length_splitter 1) Examples.in_memory
                         "ns" 0 Examples.blank (Examples.yields []) [] in
  let described := described_ingest (Examples.length_splitter 1)
                                    Examples.in_memory "ns" 0 Examples.blank
                                    (Examples.yields []) [] in
  run = (Ok [], [], [EvParse Examples.blank; EvAdd [] (Ok [])])
  /\ described = (Ok [], [], [EvParse Examples.blank])
  /\ run <> described.
Proof.
  split; [reflexivity|split; [reflexivity|]].
  intros H. vm_compute in H. discriminate.
Qed.

(** C6, amended.  For [batch_size >= 1], [ingest_blob] is the described
    ingester: it flushes exactly when, after the chunks of a document have
    been appended, the buffer holds at least [batch_size] chunks, it sends
    the whole buffer and clears it; and what it returns is the
    concatenation, in call order, of the identifier lists that the calls
    returned. *)
Theorem flushes_when_threshold_reached {S} (splitter : TextSplitter)
    (vs : VectorStore S) (ns : string) (b : Z) (blob : Blob)
    (parser : BaseBlobParser) (s : S) :
  1 <= b ->
  ingest_blob splitter vs ns b blob parser s
  = described_ingest splitter vs ns b blob parser s
  /\ match ingest_blob splitter vs ns b blob parser s with
     | (Ok ids, _, t) => ids = List.concat (returned_ids t)
     | (Err _, _, _) => True
     end.
Proof.
  intros Hb. split.
  - unfold ingest_blob, described_ingest. unfold bind at 1 2 4 5. simpl.
    destruct (lazy_parse parser blob) as [documents|e]; simpl; [|reflexivity].
    rewrite ingest_loop_then_check by (unfold len; simpl; lia).
    reflexivity.
  - pose proof (ingest_blob_outcome splitter vs ns b blob parser s) as Hout.
    destruct (ingest_blob splitter vs ns b blob parser s) as [[[ids|e] s'] t];
      [|exact I].
    destruct Hout as (_ & _ & Hids). exact Hids.
Qed.

Lemma flushes_when_threshold_reached_witness :
  let splitter := Examples.length_splitter 1 in
  let parser := Examples.yields
                  [Examples.doc "ab"; Examples.doc "c"; Examples.doc "def"] in
  ingest_blob splitter Examples.in_memory "ns" 2 Examples.blank parser []
  = described_ingest splitter Examples.in_memory "ns" 2 Examples.blank parser []
  /\ map len (add_calls
                (ingest_blob splitter Examples.in_memory "ns" 2
                             Examples.blank parser []).2) = [2; 4].
Proof.
  intros splitter parser. split.
  - apply (flushes_when_threshold_reached splitter Examples.in_memory "ns" 2
             Examples.blank parser []).
    lia.
  - reflexivity.
Defined.

(** ** The upload of the test suite *)

(** C8.  The test of the repository expects one identifier for the upload
    of a short text.  The code does otherwise: whenever the upload is
    decoded, detected and parsed and its chunks are fewer than the default
    [batch_size] of 100, [invoke] succeeds, yet [add_documents] is never
    called, the store is left as it was and [ingest_blob] returns no
    identifier. *)
Theorem small_upload_is_not_persisted {S} (rt : Runtime) (lib : ParserLibrary)
    (self : IngestRunnable S) (input : gmap string string) (s : S)
    (payload : string) (data : list byte) (from_buffer : list byte -> string)
    (documents : list Document) :
  namespace self <> "" ->
  input !! "base64_file" = Some payload ->
  decodebytes rt payload = Ok data ->
  magic rt = Some from_buffer ->
  lazy_parse (_get_default_parser lib)
             (mkBlob data (input !! "filename") (from_buffer data))
  = Ok documents ->
  chunk_count (text_splitter self) (namespace self) documents
  < default_batch_size ->
  let blob := mkBlob data (input !! "filename") (from_buffer data) in
  invoke rt lib self input s
  = (Ok (mkIngestionOutput true), s,
     EvDecode payload :: EvMime data :: EvParse blob :: idle_trace documents)
  /\ ingest_blob (text_splitter self) (vectorstore self) (namespace self)
                 default_batch_size blob (_get_default_parser lib) s
     = (Ok [], s, EvParse blob :: idle_trace documents)
  /\ add_calls (EvParse blob :: idle_trace documents) = [].
Proof.
  intros Hns Hinput Hdecode Hmagic Hparse Hsmall blob.
  assert (Hrun :
    ingest_blob (text_splitter self) (vectorstore self) (namespace self)
                default_batch_size blob (_get_default_parser lib) s
    = (Ok [], s, EvParse blob :: idle_trace documents)).
  { rewrite (ingest_blob_run _ _ _ _ _ _ documents s Hparse).
    rewrite ingest_loop_idle by (unfold len at 1; simpl; lia).
    simpl app at 1.
    rewrite final_flush_skip.
    - rewrite app_nil_r. reflexivity.
    - exact Hsmall. }
  split; [|split; [exact Hrun|apply add_calls_idle]].
  unfold invoke.
  destruct (namespace self) as [|c ns'] eqn:Hnamespace; [contradiction|].
  cbn [truthy negb].
  unfold bind at 1, _convert_ingestion_input_to_blob.
  rewrite Hinput. unfold bind at 1 2 3, _guess_mimetype. simpl.
  rewrite Hdecode, Hmagic. simpl.
  fold blob. unfold bind at 1. rewrite Hrun. simpl. rewrite app_nil_r.
  reflexivity.
Qed.

Lemma small_upload_is_not_persisted_witness :
  let self := mkIngestRunnable (Examples.length_splitter 4000)
                               Examples.in_memory "file_contents" "test1" in
  let input : gmap string string := {["base64_file" := Examples.test_file]} in
  let run := invoke Examples.text_runtime Examples.text_only self input [] in
  chunk_count (Examples.length_splitter 4000) "test1"
              [Examples.doc "This is a test file."] = 1
  /\ run.1 = (Ok (mkIngestionOutput true), [])
  /\ add_calls run.2 = [].
Proof.
  intros self input run.
  destruct (small_upload_is_not_persisted Examples.text_runtime
              Examples.text_only self input [] Examples.test_file
              (list_byte_of_string "This is a test file.")
              (fun _ => "text/plain")
              [Examples.doc "This is a test file."])
    as (Hinvoke & _ & Hcalls).
  - discriminate.
  - vm_compute. reflexivity.
  - vm_compute. reflexivity.
  - reflexivity.
  - vm_compute. reflexivity.
  - vm_compute. reflexivity.
  - split; [vm_compute; reflexivity|].
    unfold run. rewrite Hinvoke. split; [reflexivity|exact Hcalls].
Defined.

(** * Further properties of the module *)

(** ** [_update_document_metadata] *)

(** X1. Tagging a document sets its [namespace] field and nothing else: the
    text and every other metadata key are kept; a namespace the document
    already carried is replaced, so tagging twice leaves the last tag. *)
Theorem tagging_only_sets_namespace (document : Document)
    (ns ns' key : string) :
  key <> "namespace" ->
  page_content (_update_document_metadata document ns) = page_content document
  /\ metadata (_update_document_metadata document ns) !! "namespace" = Some ns
  /\ metadata (_update_document_metadata document ns) !! key
     = metadata document !! key
  /\ _update_document_metadata (_update_document_metadata document ns') ns
     = _update_document_metadata document ns.
Proof.
  intros Hkey. unfold _update_document_metadata. simpl.
  repeat split.
  - apply lookup_insert_eq.
  - apply lookup_insert_ne. congruence.
  - rewrite insert_insert_eq. reflexivity.
Qed.

Lemma tagging_only_sets_namespace_witness :
  let document := mkDocument "text" (<["namespace" := "old"]> {["source" := "a.txt"]}) in
  metadata (_update_document_metadata document "test1") !! "namespace"
  = Some "test1"
  /\ metadata (_update_document_metadata document "test1") !! "source"
     = Some "a.txt".
Proof.
  intros document.
  destruct (tagging_only_sets_namespace document "test1" "other" "source")
    as (_ & Hns & Hkey & _).
  - discriminate.
  - split; [exact Hns|]. rewrite Hkey. reflexivity.
Defined.

(** ** [_convert_ingestion_input_to_blob] *)

Lemma convert_reads_two_keys {S} (rt : Runtime)
    (input input' : gmap string string) (s : S) :
  input !! "base64_file" = input' !! "base64_file" ->
  input !! "filename" = input' !! "filename" ->
  _convert_ingestion_input_to_blob rt input s
  = _convert_ingestion_input_to_blob rt input' s.
Proof.
  intros Hfile Hname. unfold _convert_ingestion_input_to_blob.
  rewrite Hfile, Hname. reflexivity.
Qed.

Lemma convert_run {S} (rt : Runtime) (input : gmap string string) (s : S)
    (payload : string) (data : list byte) (from_buffer : list byte -> string) :
  input !! "base64_file" = Some payload ->
  decodebytes rt payload = Ok data ->
  magic rt = Some from_buffer ->
  _convert_ingestion_input_to_blob rt input s
  = (Ok (mkBlob data (input !! "filename") (from_buffer data)), s,
     [EvDecode payload; EvMime data]).
Proof.
  intros Hinput Hdecode Hmagic.
  unfold _convert_ingestion_input_to_blob. rewrite Hinput.
  unfold bind at 1 2 3, _guess_mimetype. simpl.
  rewrite Hdecode, Hmagic. reflexivity.
Qed.

(** X2. An input dictionary without the key [base64_file] makes the
    conversion raise [KeyError] for that key before anything is decoded or
    detected, whatever else the dictionary holds. *)
Theorem convert_missing_base64_file {S} (rt : Runtime)
    (input : gmap string string) (s : S) :
  input !! "base64_file" = None ->
  _convert_ingestion_input_to_blob rt input s
  = (Err (KeyError "base64_file"), s, []).
Proof.
  intros Hinput. unfold _convert_ingestion_input_to_blob.
  rewrite Hinput. reflexivity.
Qed.

Lemma convert_missing_base64_file_witness :
  @_convert_ingestion_input_to_blob (list Document) Examples.text_runtime
    {["file_contents" := "This is a test file."]} []
  = (Err (KeyError "base64_file"), [], []).
Proof.
  apply (convert_missing_base64_file Examples.text_runtime
           {["file_contents" := "This is a test file."]} []).
  vm_compute. reflexivity.
Defined.

(** X3. A payload that [base64.decodebytes] refuses makes the conversion
    raise the decoder's error; the mime detector is not reached, so the
    error is the same whether or not [magic] is installed. *)
Theorem convert_decode_error_first {S} (rt : Runtime)
    (input : gmap string string) (s : S) (payload : string) (e : exn) :
  input !! "base64_file" = Some payload ->
  decodebytes rt payload = Err e ->
  _convert_ingestion_input_to_blob rt input s = (Err e, s, [EvDecode payload]).
Proof.
  intros Hinput Hdecode.
  unfold _convert_ingestion_input_to_blob. rewrite Hinput.
  unfold bind at 1 2. simpl. rewrite Hdecode. reflexivity.
Qed.

Lemma convert_decode_error_first_witness :
  @_convert_ingestion_input_to_blob (list Document) Examples.bare_runtime
    {["base64_file" := "QUJDR"]} []
  = (Err (ExternalError "Incorrect padding"), [], [EvDecode "QUJDR"]).
Proof.
  apply (convert_decode_error_first Examples.bare_runtime
           {["base64_file" := "QUJDR"]} [] "QUJDR").
  - vm_compute. reflexivity.
  - vm_compute. reflexivity.
Defined.

(** X4. When the payload decodes and [magic] is installed, the blob holds
    the decoded bytes, the mime type that the detector gave for exactly
    these bytes, and as path the [filename] of the input, or no path when
    the input has none; the payload is decoded before the detector runs. *)
Theorem convert_builds_blob {S} (rt : Runtime)
    (input : gmap string string) (s : S) (payload : string)
    (data : list byte) (from_buffer : list byte -> string) :
  input !! "base64_file" = Some payload ->
  decodebytes rt payload = Ok data ->
  magic rt = Some from_buffer ->
  exists blob,
    _convert_ingestion_input_to_blob rt input s
    = (Ok blob, s, [EvDecode payload; EvMime data])
    /\ blob_data blob = data
    /\ blob_mimetype blob = from_buffer data
    /\ blob_path blob = input !! "filename"
    /\ (input !! "filename" = None -> blob_path blob = None).
Proof.
  intros Hinput Hdecode Hmagic.
  exists (mkBlob data (input !! "filename") (from_buffer data)).
  rewrite (convert_run rt input s payload data from_buffer Hinput Hdecode Hmagic).
  simpl. repeat split; auto.
Qed.

Lemma convert_builds_blob_witness :
  exists blob,
    @_convert_ingestion_input_to_blob (list Document) Examples.text_runtime
      (<["filename" := "a.txt"]> {["base64_file" := Examples.test_file]}) []
    = (Ok blob, [],
       [EvDecode Examples.test_file;
        EvMime (list_byte_of_string "This is a test file.")])
    /\ blob_data blob = list_byte_of_string "This is a test file."
    /\ blob_mimetype blob = "text/plain"
    /\ blob_path blob = Some "a.txt".
Proof.
  destruct (convert_builds_blob (S := list Document) Examples.text_runtime
              (<["filename" := "a.txt"]> {["base64_file" := Examples.test_file]})
              [] Examples.test_file
              (list_byte_of_string "This is a test file.")
              (fun _ => "text/plain"))
    as (blob & Hrun & Hdata & Hmime & Hpath & _).
  - vm_compute. reflexivity.
  - vm_compute. reflexivity.
  - reflexivity.
  - exists blob. rewrite Hpath. repeat split; auto.
Defined.

(** ** [_get_default_parser] *)

Lemma default_parser_lookup (lib : ParserLibrary) (blob : Blob) :
  lazy_parse (_get_default_parser lib) blob
  = let m := blob_mimetype blob in
    if decide ("application/pdf" = m) then lazy_parse (PyMuPDFParser lib) blob
    else if decide ("text/plain" = m) then lazy_parse (TextParser lib) blob
    else if decide ("text/html" = m) then lazy_parse (BS4HTMLParser lib) blob
    else if decide ("application/msword" = m)
         then lazy_parse (MsWordParser lib) blob
    else if decide (docx_mimetype = m) then lazy_parse (MsWordParser lib) blob
    else Err (ValueError ("Unsupported mime type: " ++ m)%string).
Proof.
  unfold _get_default_parser, MimeTypeBasedParser. simpl.
  rewrite !lookup_insert, lookup_empty.
  repeat case_decide; reflexivity.
Qed.

(** X5. The default parser hands a blob to the PDF, text, HTML or Word
    parser according to its mime type, both Word mime types going to the
    same parser; it has no fallback, so a blob of any other mime type is
    refused with [ValueError] and no library parser sees it. *)
Theorem default_parser_dispatch (lib : ParserLibrary) (blob : Blob) :
  lazy_parse (_get_default_parser lib) blob
  = let m := blob_mimetype blob in
    if decide ("application/pdf" = m) then lazy_parse (PyMuPDFParser lib) blob
    else if decide ("text/plain" = m) then lazy_parse (TextParser lib) blob
    else if decide ("text/html" = m) then lazy_parse (BS4HTMLParser lib) blob
    else if decide ("application/msword" = m)
         then lazy_parse (MsWordParser lib) blob
    else if decide (docx_mimetype = m) then lazy_parse (MsWordParser lib) blob
    else Err (ValueError ("Unsupported mime type: " ++ m)%string).
Proof. apply default_parser_lookup. Qed.

(** ** [IngestRunnable.invoke] *)

Lemma invoke_run {S} (rt : Runtime) (lib : ParserLibrary)
    (self : IngestRunnable S) (input : gmap string string) (s : S)
    (payload : string) (data : list byte) (from_buffer : list byte -> string) :
  namespace self <> "" ->
  input !! "base64_file" = Some payload ->
  decodebytes rt payload = Ok data ->
  magic rt = Some from_buffer ->
  invoke rt lib self input s
  = let '(r, s', t) :=
      ingest_blob (text_splitter self) (vectorstore self) (namespace self)
                  default_batch_size
                  (mkBlob data (input !! "filename") (from_buffer data))
                  (_get_default_parser lib) s in
    (match r with
     | Ok _ => Ok (mkIngestionOutput true)
     | Err e => Err e
     end, s', EvDecode payload :: EvMime data :: t).
Proof.
  intros Hns Hinput Hdecode Hmagic. unfold invoke.
  destruct (namespace self) as [|c ns'] eqn:Hnamespace; [contradiction|].
  cbn [truthy negb]. unfold bind at 1.
  rewrite (convert_run rt input s payload data from_buffer Hinput Hdecode Hmagic).
  unfold bind at 1.
  destruct (ingest_blob (text_splitter self) (vectorstore self) (String c ns')
              default_batch_size
              (mkBlob data (input !! "filename") (from_buffer data))
              (_get_default_parser lib) s) as [[[ids|e] s'] t]; simpl.
  - rewrite app_nil_r. reflexivity.
  - reflexivity.
Qed.

(** X6. With a namespace, an input dictionary that lacks [base64_file]
    (such as one keyed by [file_contents]) makes [invoke] raise [KeyError]:
    nothing is decoded, parsed or stored. *)
Theorem invoke_missing_base64_file {S} (rt : Runtime) (lib : ParserLibrary)
    (self : IngestRunnable S) (input : gmap string string) (s : S) :
  namespace self <> "" ->
  input !! "base64_file" = None ->
  invoke rt lib self input s = (Err (KeyError "base64_file"), s, []).
Proof.
  intros Hns Hinput. unfold invoke.
  destruct (namespace self) as [|c ns'] eqn:Hnamespace; [contradiction|].
  cbn [truthy negb]. unfold bind at 1, _convert_ingestion_input_to_blob.
  rewrite Hinput. reflexivity.
Qed.

Lemma invoke_missing_base64_file_witness :
  invoke Examples.text_runtime Examples.text_only
         (mkIngestRunnable (Examples.length_splitter 4000) Examples.in_memory
                           "file_contents" "test1")
         {["file_contents" := "This is a test file."]} []
  = (Err (KeyError "base64_file"), [], []).
Proof.
  apply (invoke_missing_base64_file Examples.text_runtime Examples.text_only
           (mkIngestRunnable (Examples.length_splitter 4000) Examples.in_memory
                             "file_contents" "test1")).
  - discriminate.
  - vm_compute. reflexivity.
Defined.

(** X7. Once the input is converted, [invoke] is [ingest_blob] on the blob
    with the default parser and the default batch size of 100: the store
    ends in the state [ingest_blob] leaves, the calls are those of the
    conversion followed by those of [ingest_blob], an error of
    [ingest_blob] is the error of [invoke], and a run that returns gives
    [{"success": True}] whatever identifiers were collected. *)
Theorem invoke_is_ingest_blob {S} (rt : Runtime) (lib : ParserLibrary)
    (self : IngestRunnable S) (input : gmap string string) (s : S)
    (payload : string) (data : list byte) (from_buffer : list byte -> string) :
  namespace self <> "" ->
  input !! "base64_file" = Some payload ->
  decodebytes rt payload = Ok data ->
  magic rt = Some from_buffer ->
  invoke rt lib self input s
  = let '(r, s', t) :=
      ingest_blob (text_splitter self) (vectorstore self) (namespace self)
                  default_batch_size
                  (mkBlob data (input !! "filename") (from_buffer data))
                  (_get_default_parser lib) s in
    (match r with
     | Ok _ => Ok (mkIngestionOutput true)
     | Err e => Err e
     end, s', EvDecode payload :: EvMime data :: t).
Proof. apply invoke_run. Qed.

Lemma invoke_is_ingest_blob_witness :
  let self := mkIngestRunnable (Examples.length_splitter 1) Examples.in_memory
                               "file_contents" "test1" in
  let input : gmap string string := {["base64_file" := Examples.test_file]} in
  let run := invoke Examples.text_runtime Examples.text_only self input [] in
  run.1.1 = Ok (mkIngestionOutput true)
  /\ List.length run.1.2 = 0%nat.
Proof.
  intros self input run.
  pose proof (invoke_is_ingest_blob Examples.text_runtime Examples.text_only
                self input [] Examples.test_file
                (list_byte_of_string "This is a test file.")
                (fun _ => "text/plain")) as Hrun.
  unfold run. rewrite Hrun.
  - vm_compute. split; reflexivity.
  - discriminate.
  - vm_compute. reflexivity.
  - vm_compute. reflexivity.
  - reflexivity.
Defined.

(** X8. [invoke] never reads [input_key], nor any key of the input other
    than [base64_file] and [filename]: two runnables that differ only in
    [input_key], on inputs that agree on these two keys, behave alike. *)
Theorem invoke_ignores_input_key {S} (rt : Runtime) (lib : ParserLibrary)
    (splitter : TextSplitter) (vs : VectorStore S) (key key' ns : string)
    (input input' : gmap string string) (s : S) :
  input !! "base64_file" = input' !! "base64_file" ->
  input !! "filename" = input' !! "filename" ->
  invoke rt lib (mkIngestRunnable splitter vs key ns) input s
  = invoke rt lib (mkIngestRunnable splitter vs key' ns) input' s.
Proof.
  intros Hfile Hname. unfold invoke. simpl.
  destruct (negb (truthy ns)); [reflexivity|].
  unfold bind at 1 3.
  rewrite (convert_reads_two_keys rt input input' s Hfile Hname).
  reflexivity.
Qed.

Lemma invoke_ignores_input_key_witness :
  invoke Examples.text_runtime Examples.text_only
         (mkIngestRunnable (Examples.length_splitter 4000) Examples.in_memory
                           "file_contents" "test1")
         (<["file_contents" := "ignored"]> {["base64_file" := Examples.test_file]})
         []
  = invoke Examples.text_runtime Examples.text_only
           (mkIngestRunnable (Examples.length_splitter 4000) Examples.in_memory
                             "base64_file" "test1")
           {["base64_file" := Examples.test_file]} [].
Proof.
  apply (invoke_ignores_input_key Examples.text_runtime Examples.text_only
           (Examples.length_splitter 4000) Examples.in_memory).
  - vm_compute. reflexivity.
  - vm_compute. reflexivity.
Defined.

(** X9. When the detector reports a mime type that the default parser has
    no handler for (an EPUB, an ODT or an RTF file, say), [invoke] raises
    [ValueError] after decoding and detection: no document is split and
    nothing is stored. *)
Theorem invoke_unsupported_mimetype {S} (rt : Runtime) (lib : ParserLibrary)
    (self : IngestRunnable S) (input : gmap string string) (s : S)
    (payload : string) (data : list byte) (from_buffer : list byte -> string) :
  namespace self <> "" ->
  input !! "base64_file" = Some payload ->
  decodebytes rt payload = Ok data ->
  magic rt = Some from_buffer ->
  from_buffer data ∉ ["application/pdf"; "text/plain"; "text/html";
                      "application/msword"; docx_mimetype] ->
  invoke rt lib self input s
  = (Err (ValueError ("Unsupported mime type: " ++ from_buffer data)%string), s,
     [EvDecode payload; EvMime data;
      EvParse (mkBlob data (input !! "filename") (from_buffer data))]).
Proof.
  intros Hns Hinput Hdecode Hmagic Hmime.
  rewrite (invoke_run rt lib self input s payload data from_buffer
             Hns Hinput Hdecode Hmagic).
  rewrite (ingest_blob_parse_error _ _ _ _ _ _
             (ValueError ("Unsupported mime type: " ++ from_buffer data)%string)).
  - reflexivity.
  - rewrite default_parser_lookup. simpl.
    repeat match goal with
           | |- context [decide (?a = ?m)] =>
               destruct (decide (a = m)) as [Heq|_];
               [exfalso; apply Hmime; rewrite <- Heq; set_solver|]
           end.
    reflexivity.
Qed.

Lemma invoke_unsupported_mimetype_witness :
  let epub := mkRuntime (Some (fun _ => "application/epub+zip"))
                        Examples.b64decode in
  invoke epub Examples.text_only
         (mkIngestRunnable (Examples.length_splitter 4000) Examples.in_memory
                           "file_contents" "test1")
         {["base64_file" := Examples.test_file]} []
  = (Err (ValueError "Unsupported mime type: application/epub+zip"), [],
     [EvDecode Examples.test_file;
      EvMime (list_byte_of_string "This is a test file.");
      EvParse (mkBlob (list_byte_of_string "This is a test file.") None
                      "application/epub+zip")]).
Proof.
  intros epub.
  rewrite (invoke_unsupported_mimetype epub Examples.text_only
             (mkIngestRunnable (Examples.length_splitter 4000) Examples.in_memory
                               "file_contents" "test1")
             {["base64_file" := Examples.test_file]} [] Examples.test_file
             (list_byte_of_string "This is a test file.")
             (fun _ => "application/epub+zip")).
  - vm_compute. reflexivity.
  - discriminate.
  - vm_compute. reflexivity.
  - vm_compute. reflexivity.
  - reflexivity.
  - unfold docx_mimetype. rewrite !elem_of_cons, elem_of_nil.
    intros Hin. repeat destruct Hin as [Hin|Hin]; try discriminate.
    exact Hin.
Defined.

(** ** [ingest_blob]: what is sent, and in which order *)

Lemma split_calls_app (t1 t2 : trace) :
  split_calls (t1 ++ t2) = split_calls t1 ++ split_calls t2.
Proof.
  induction t1 as [|ev t1 IH]; [reflexivity|].
  destruct ev; simpl; rewrite IH; reflexivity.
Qed.

Lemma all_chunks_app (splitter : TextSplitter) (ns : string)
    (l1 l2 : list Document) :
  all_chunks splitter ns (l1 ++ l2)
  = all_chunks splitter ns l1 ++ all_chunks splitter ns l2.
Proof. unfold all_chunks. apply flat_map_app. Qed.

Section Order.
Context {S : Type}.
Variable splitter : TextSplitter.
Variable vs : VectorStore S.
Variable ns : string.
Variable b : Z.

(** The loop sends the chunks in the order of the documents, and splits
    each document it takes, once. *)
Lemma ingest_loop_order documents s :
  match ingest_loop splitter vs ns b documents [] [] s with
  | (Ok (buf, _), _, t) =>
      List.concat (add_calls t) ++ buf = all_chunks splitter ns documents
      /\ split_calls t = documents
  | (Err _, _, t) =>
      List.concat (add_calls t) `prefix_of` all_chunks splitter ns documents
      /\ split_calls t `prefix_of` documents
  end.
Proof.
  refine (ingest_loop_invariant splitter vs ns b documents
            (fun done buf _ _ t =>
               List.concat (add_calls t) ++ buf = all_chunks splitter ns done
               /\ split_calls t = done)
            (fun _ _ t =>
               List.concat (add_calls t) `prefix_of` all_chunks splitter ns documents
               /\ split_calls t `prefix_of` documents)
            _ _ _ documents [] [] [] s [] eq_refl _).
  - intros done d rest buf ids s1 t _ [Hpart Hsplit] _.
    rewrite add_calls_app, split_calls_app, all_chunks_snoc. simpl.
    rewrite app_nil_r, app_assoc, Hpart, Hsplit. auto.
  - intros done d rest buf ids s1 t new s2 _ [Hpart Hsplit] _ _.
    rewrite add_calls_app, split_calls_app, all_chunks_snoc, concat_app. simpl.
    rewrite !app_nil_r, app_assoc, Hpart, Hsplit. auto.
  - intros done d rest buf ids s1 t e s2 Hdocs [Hpart Hsplit] _ _.
    rewrite add_calls_app, split_calls_app, concat_app. simpl.
    rewrite app_nil_r, app_assoc, Hpart, Hsplit, <- all_chunks_snoc.
    assert (Hdocs' : documents = (done ++ [d]) ++ rest)
      by (rewrite <- app_assoc; exact Hdocs).
    split.
    + exists (all_chunks splitter ns rest). rewrite Hdocs'. apply all_chunks_app.
    + exists rest. exact Hdocs'.
  - split; reflexivity.
Qed.

(** The same for a whole run. *)
Lemma ingest_blob_order blob parser documents s :
  lazy_parse parser blob = Ok documents ->
  match ingest_blob splitter vs ns b blob parser s with
  | (r, _, t) =>
      List.concat (add_calls t) `prefix_of` all_chunks splitter ns documents
      /\ split_calls t `prefix_of` documents
      /\ (forall ids, r = Ok ids -> split_calls t = documents)
  end.
Proof.
  intros Hparse.
  rewrite (ingest_blob_run _ _ _ _ _ _ documents s Hparse).
  pose proof (ingest_loop_order documents s) as Horder.
  destruct (ingest_loop splitter vs ns b documents [] [] s)
    as [[[[buf ids]|e] s1] t1]; cbv beta iota.
  - destruct Horder as [Hpart Hsplit].
    destruct (Z.lt_ge_cases (len buf) b) as [Hlt|Hge].
    + rewrite final_flush_skip by exact Hlt. rewrite app_nil_r.
      cbn [add_calls split_calls]. rewrite Hsplit.
      repeat split; auto. rewrite <- Hpart. apply prefix_app_r. reflexivity.
    + destruct (add_documents vs buf s1) as [[new|e] s2] eqn:Hadd.
      * rewrite (final_flush_accept _ _ _ _ _ _ _ Hge Hadd).
        cbn [add_calls split_calls].
        rewrite add_calls_app, split_calls_app, concat_app. simpl.
        rewrite !app_nil_r, Hpart, Hsplit. repeat split; auto.
      * rewrite (final_flush_raise _ _ _ _ _ _ _ Hge Hadd).
        cbn [add_calls split_calls].
        rewrite add_calls_app, split_calls_app, concat_app. simpl.
        rewrite !app_nil_r, Hpart, Hsplit. repeat split; auto.
  - destruct Horder as [Hpart Hsplit]. cbn [add_calls split_calls].
    repeat split; auto. intros ids Hids. discriminate.
Qed.

End Order.

(** X10. In every run of [ingest_blob], whether it returns or raises, the
    batches handed to [add_documents], put end to end, are an initial
    segment of the tagged chunks of the parsed documents: chunks are sent in
    document order, none twice, none that the splitter did not produce. *)
Theorem chunks_sent_in_order {S} (splitter : TextSplitter)
    (vs : VectorStore S) (ns : string) (b : Z) (blob : Blob)
    (parser : BaseBlobParser) (documents : list Document) (s : S) :
  lazy_parse parser blob = Ok documents ->
  List.concat (add_calls (ingest_blob splitter vs ns b blob parser s).2)
  `prefix_of` all_chunks splitter ns documents.
Proof.
  intros Hparse.
  pose proof (ingest_blob_order splitter vs ns b blob parser documents s Hparse)
    as Horder.
  destruct (ingest_blob splitter vs ns b blob parser s) as [[r s'] t].
  apply Horder.
Qed.

Lemma chunks_sent_in_order_witness :
  let splitter := Examples.length_splitter 1 in
  let documents := [Examples.doc "ab"; Examples.doc "cd"; Examples.doc "ef"] in
  List.concat
    (add_calls (ingest_blob splitter (Examples.bounded 3) "ns" 2 Examples.blank
                            (Examples.yields documents) []).2)
  `prefix_of` all_chunks splitter "ns" documents
  /\ map page_content
       (List.concat
          (add_calls (ingest_blob splitter (Examples.bounded 3) "ns" 2
                                  Examples.blank (Examples.yields documents) []).2))
     = ["a"; "b"; "c"; "d"].
Proof.
  intros splitter documents. split.
  - apply (chunks_sent_in_order splitter (Examples.bounded 3) "ns" 2
             Examples.blank (Examples.yields documents) documents []).
    reflexivity.
  - vm_compute. reflexivity.
Defined.

(** X11. [ingest_blob] hands each parsed document to the splitter once, in
    the order of the parse: the documents split in a run are an initial
    segment of the parsed documents, and all of them when the run returns. *)
Theorem documents_split_once_in_order {S} (splitter : TextSplitter)
    (vs : VectorStore S) (ns : string) (b : Z) (blob : Blob)
    (parser : BaseBlobParser) (documents : list Document) (s : S) :
  lazy_parse parser blob = Ok documents ->
  split_calls (ingest_blob splitter vs ns b blob parser s).2
  `prefix_of` documents
  /\ (forall ids,
        (ingest_blob splitter vs ns b blob parser s).1.1 = Ok ids ->
        split_calls (ingest_blob splitter vs ns b blob parser s).2 = documents).
Proof.
  intros Hparse.
  pose proof (ingest_blob_order splitter vs ns b blob parser documents s Hparse)
    as Horder.
  destruct (ingest_blob splitter vs ns b blob parser s) as [[r s'] t].
  simpl. destruct Horder as (_ & Hprefix & Hall). auto.
Qed.

Lemma documents_split_once_in_order_witness :
  let splitter := Examples.length_splitter 1 in
  let documents := [Examples.doc "ab"; Examples.doc "cd"; Examples.doc "ef"] in
  split_calls (ingest_blob splitter (Examples.bounded 3) "ns" 2 Examples.blank
                           (Examples.yields documents) []).2
  `prefix_of` documents
  /\ split_calls (ingest_blob splitter Examples.in_memory "ns" 2 Examples.blank
                              (Examples.yields documents) []).2 = documents.
Proof.
  intros splitter documents. split.
  - apply (documents_split_once_in_order splitter (Examples.bounded 3) "ns" 2
             Examples.blank (Examples.yields documents) documents []).
    reflexivity.
  - destruct (documents_split_once_in_order splitter Examples.in_memory "ns" 2
                Examples.blank (Examples.yields documents) documents [] eq_refl)
      as [_ Hall].
    apply (Hall ["";"i";"ii";"iii";"iiii";"iiiii"]). vm_compute. reflexivity.
Defined.

(** ** [ingest_blob]: how much is lost *)

Lemma unsent_remainder_lemma {S} (splitter : TextSplitter)
    (vs : VectorStore S) (ns : string) (b : Z) (blob : Blob)
    (parser : BaseBlobParser) (documents : list Document) (s s' : S)
    (ids : list string) (t : trace) :
  1 <= b ->
  lazy_parse parser blob = Ok documents ->
  ingest_blob splitter vs ns b blob parser s = (Ok ids, s', t) ->
  exists remainder,
    all_chunks splitter ns documents = List.concat (add_calls t) ++ remainder
    /\ len remainder < b.
Proof.
  intros Hb Hparse Hrun.
  rewrite (ingest_blob_run _ _ _ _ _ _ documents s Hparse) in Hrun.
  pose proof (ingest_loop_facts splitter vs ns b documents s) as Hfacts.
  destruct (ingest_loop splitter vs ns b documents [] [] s)
    as [[[[buf ids1]|e] s1] t1]; [|discriminate].
  destruct Hfacts as (_ & _ & _ & Hpart & _ & _ & _ & Hlt).
  specialize (Hlt Hb).
  rewrite final_flush_skip in Hrun by exact Hlt.
  injection Hrun as _ _ <-. rewrite app_nil_r.
  exists buf. cbn [add_calls]. auto.
Qed.

(** X12. For [batch_size >= 1], a run of [ingest_blob] that returns has
    sent every chunk except a trailing remainder of fewer than [batch_size]
    chunks (possibly none): at most [batch_size - 1] chunks are left
    unsent. *)
Theorem unsent_remainder_below_batch_size {S} (splitter : TextSplitter)
    (vs : VectorStore S) (ns : string) (b : Z) (blob : Blob)
    (parser : BaseBlobParser) (documents : list Document) (s s' : S)
    (ids : list string) (t : trace) :
  1 <= b ->
  lazy_parse parser blob = Ok documents ->
  ingest_blob splitter vs ns b blob parser s = (Ok ids, s', t) ->
  exists remainder,
    all_chunks splitter ns documents = List.concat (add_calls t) ++ remainder
    /\ len remainder < b.
Proof. apply unsent_remainder_lemma. Qed.

Lemma unsent_remainder_below_batch_size_witness :
  let splitter := Examples.length_splitter 1 in
  let documents := [Examples.doc "abc"; Examples.doc "d"; Examples.doc "e"] in
  exists remainder,
    all_chunks splitter "ns" documents
    = List.concat
        (add_calls (ingest_blob splitter Examples.in_memory "ns" 3
                                Examples.blank (Examples.yields documents) []).2)
      ++ remainder
    /\ len remainder < 3.
Proof.
  intros splitter documents.
  destruct (ingest_blob splitter Examples.in_memory "ns" 3 Examples.blank
                        (Examples.yields documents) [])
    as [[r s'] t] eqn:Hrun.
  assert (Hr : r = Ok [""; "i"; "ii"])
    by (apply (f_equal (fun x => x.1.1)) in Hrun; vm_compute in Hrun;
        symmetry; exact Hrun).
  subst r.
  apply (unsent_remainder_below_batch_size splitter Examples.in_memory "ns" 3
           Examples.blank (Examples.yields documents) documents [] s'
           [""; "i"; "ii"] t).
  - lia.
  - reflexivity.
  - exact Hrun.
Defined.

(** ** [ingest_blob] with a threshold of zero or less *)

Lemma ingest_loop_always_flushes {S} (splitter : TextSplitter)
    (vs : VectorStore S) (ns : string) (b : Z) (documents : list Document) :
  b <= 0 -> never_raises vs ->
  forall ids s,
    exists ids' s' t,
      ingest_loop splitter vs ns b documents [] ids s = (Ok ([], ids'), s', t)
      /\ add_calls t = map (tagged_chunks splitter ns) documents.
Proof.
  intros Hb Hstore. induction documents as [|d rest IH]; intros ids s.
  - exists ids, s, []. split; reflexivity.
  - destruct (add_documents vs ([] ++ tagged_chunks splitter ns d) s)
      as [r s1] eqn:Hadd.
    destruct (Hstore ([] ++ tagged_chunks splitter ns d) s) as [new Hnew].
    rewrite Hadd in Hnew. simpl in Hnew. subst r.
    assert (Hge : b <= len ([] ++ tagged_chunks splitter ns d))
      by (pose proof (len_nonneg ([] ++ tagged_chunks splitter ns d)); lia).
    rewrite (ingest_loop_flush _ _ _ _ _ _ _ _ _ _ _ Hge Hadd).
    destruct (IH (ids ++ new) s1) as (ids' & s' & t & Hloop & Hcalls).
    rewrite Hloop.
    eexists _, _, _. split; [reflexivity|].
    simpl. rewrite Hcalls. reflexivity.
Qed.

(** X13. With [batch_size <= 0] and a store that accepts every batch, every
    document is flushed on its own, also one that splits into no chunk, and
    the check after the loop sends one more, empty, batch: the calls are the
    chunk lists of the documents followed by the empty list, and no chunk is
    left unsent. *)
Theorem nonpositive_batch_size_flushes_each_document {S}
    (splitter : TextSplitter) (vs : VectorStore S) (ns : string) (b : Z)
    (blob : Blob) (parser : BaseBlobParser) (documents : list Document)
    (s : S) :
  b <= 0 ->
  never_raises vs ->
  lazy_parse parser blob = Ok documents ->
  exists ids s' t,
    ingest_blob splitter vs ns b blob parser s = (Ok ids, s', t)
    /\ add_calls t = map (tagged_chunks splitter ns) documents ++ [[]]
    /\ List.concat (add_calls t) = all_chunks splitter ns documents.
Proof.
  intros Hb Hstore Hparse.
  rewrite (ingest_blob_run _ _ _ _ _ _ documents s Hparse).
  destruct (ingest_loop_always_flushes splitter vs ns b documents Hb Hstore [] s)
    as (ids1 & s1 & t1 & Hloop & Hcalls).
  rewrite Hloop.
  destruct (add_documents vs [] s1) as [r s2] eqn:Hadd.
  destruct (Hstore [] s1) as [new Hnew].
  rewrite Hadd in Hnew. simpl in Hnew. subst r.
  assert (Hge : b <= len (@nil Document)) by (unfold len; simpl; lia).
  rewrite (final_flush_accept _ _ _ _ _ _ _ Hge Hadd).
  eexists _, _, _. split; [reflexivity|].
  cbn [add_calls]. rewrite add_calls_app, Hcalls. simpl.
  split; [reflexivity|].
  rewrite concat_app. simpl. rewrite app_nil_r.
  unfold all_chunks. rewrite flat_map_concat_map. reflexivity.
Qed.

Lemma nonpositive_batch_size_flushes_each_document_witness :
  let splitter := Examples.length_splitter 1 in
  let documents := [Examples.doc "ab"; Examples.doc ""; Examples.doc "c"] in
  exists ids s' t,
    ingest_blob splitter Examples.in_memory "ns" 0 Examples.blank
                (Examples.yields documents) [] = (Ok ids, s', t)
    /\ map len (add_calls t) = [2; 0; 1; 0].
Proof.
  intros splitter documents.
  destruct (nonpositive_batch_size_flushes_each_document splitter
              Examples.in_memory "ns" 0 Examples.blank
              (Examples.yields documents) documents [])
    as (ids & s' & t & Hrun & Hcalls & _).
  - lia.
  - intros batch s. eexists. reflexivity.
  - reflexivity.
  - exists ids, s', t. split; [exact Hrun|].
    rewrite Hcalls. vm_compute. reflexivity.
Defined.

(** ** [ingest_blob]: the identifiers *)

Lemma ids_match_batches (t : trace) :
  Forall accepted t -> Forall one_id_each t ->
  List.length (List.concat (returned_ids t))
  = List.length (List.concat (add_calls t)).
Proof.
  induction t as [|ev t IH]; intros Hacc Hone; [reflexivity|].
  inversion Hacc as [|? ? Hev Hacc']; inversion Hone as [|? ? Hev1 Hone']; subst.
  destruct ev as [| | | | |batch [new|e]]; simpl in *; auto.
  - rewrite !length_app, IH, Hev1 by assumption. reflexivity.
  - contradiction.
Qed.

Lemma ingest_blob_one_id_each {S} (splitter : TextSplitter)
    (vs : VectorStore S) (ns : string) (b : Z) (blob : Blob)
    (parser : BaseBlobParser) (s : S) :
  one_id_per_document vs ->
  Forall one_id_each (ingest_blob splitter vs ns b blob parser s).2.
Proof.
  intros Hone.
  destruct (lazy_parse parser blob) as [documents|e] eqn:Hparse.
  2:{ rewrite (ingest_blob_parse_error _ _ _ _ _ _ e s Hparse). simpl.
      repeat constructor. }
  rewrite (ingest_blob_run _ _ _ _ _ _ documents s Hparse).
  assert (Hloop :
    match ingest_loop splitter vs ns b documents [] [] s with
    | (Ok _, _, t) => Forall one_id_each t
    | (Err _, _, t) => Forall one_id_each t
    end).
  { assert (Hrule :
      match ingest_loop splitter vs ns b documents [] [] s with
      | (Ok (_, _), _, t) => Forall one_id_each t
      | (Err _, _, t) => Forall one_id_each t
      end).
    { refine (ingest_loop_invariant splitter vs ns b documents
                (fun _ _ _ _ t => Forall one_id_each t)
                (fun _ _ t => Forall one_id_each t)
                _ _ _ documents [] [] [] s [] eq_refl _).
      - intros done d rest buf ids s1 t _ Ht _.
        apply Forall_app; split; [exact Ht|repeat constructor].
      - intros done d rest buf ids s1 t new s2 _ Ht _ Hadd.
        apply Forall_app; split; [exact Ht|].
        repeat constructor. simpl. eapply Hone. exact Hadd.
      - intros done d rest buf ids s1 t e s2 _ Ht _ _.
        apply Forall_app; split; [exact Ht|repeat constructor].
      - constructor. }
    destruct (ingest_loop splitter vs ns b documents [] [] s)
      as [[[[buf ids]|e] s1] t1]; exact Hrule. }
  destruct (ingest_loop splitter vs ns b documents [] [] s)
    as [[[[buf ids]|e] s1] t1]; cbv beta iota.
  - destruct (Z.lt_ge_cases (len buf) b) as [Hlt|Hge].
    + rewrite final_flush_skip by exact Hlt. simpl. rewrite app_nil_r.
      constructor; [exact I|exact Hloop].
    + destruct (add_documents vs buf s1) as [[new|e] s2] eqn:Hadd.
      * rewrite (final_flush_accept _ _ _ _ _ _ _ Hge Hadd). simpl.
        constructor; [exact I|]. apply Forall_app; split; [exact Hloop|].
        repeat constructor. simpl. eapply Hone. exact Hadd.
      * rewrite (final_flush_raise _ _ _ _ _ _ _ Hge Hadd). simpl.
        constructor; [exact I|]. apply Forall_app; split; [exact Hloop|].
        repeat constructor.
  - simpl. constructor; [exact I|exact Hloop].
Qed.

(** X14. If the store returns one identifier per document it accepts, a run
    of [ingest_blob] that returns gives exactly one identifier per chunk
    sent, and so no more identifiers than there are chunks: a caller can
    count the persisted chunks, but not the parsed ones, from the result. *)
Theorem one_identifier_per_sent_chunk {S} (splitter : TextSplitter)
    (vs : VectorStore S) (ns : string) (b : Z) (blob : Blob)
    (parser : BaseBlobParser) (documents : list Document) (s s' : S)
    (ids : list string) (t : trace) :
  one_id_per_document vs ->
  lazy_parse parser blob = Ok documents ->
  ingest_blob splitter vs ns b blob parser s = (Ok ids, s', t) ->
  len ids = len (List.concat (add_calls t))
  /\ len ids <= chunk_count splitter ns documents.
Proof.
  intros Hone Hparse Hrun.
  pose proof (ingest_blob_outcome splitter vs ns b blob parser s) as Hout.
  pose proof (ingest_blob_one_id_each splitter vs ns b blob parser s Hone) as Hev.
  pose proof (ingest_blob_order splitter vs ns b blob parser documents s Hparse)
    as Horder.
  rewrite Hrun in Hout, Hev, Horder. simpl in Hev.
  destruct Hout as (_ & Hacc & ->). destruct Horder as (Hprefix & _).
  apply prefix_length in Hprefix.
  unfold chunk_count, len. rewrite (ids_match_batches t Hacc Hev).
  split; [reflexivity|lia].
Qed.

Lemma one_identifier_per_sent_chunk_witness :
  let splitter := Examples.length_splitter 1 in
  let documents := [Examples.doc "abc"; Examples.doc "d"; Examples.doc "e"] in
  len ([""; "i"; "ii"] : list string) <= chunk_count splitter "ns" documents
  /\ chunk_count splitter "ns" documents = 5.
Proof.
  intros splitter documents.
  destruct (ingest_blob splitter Examples.in_memory "ns" 3 Examples.blank
                        (Examples.yields documents) [])
    as [[r s'] t] eqn:Hrun.
  assert (Hr : r = Ok [""; "i"; "ii"])
    by (apply (f_equal (fun x => x.1.1)) in Hrun; vm_compute in Hrun;
        symmetry; exact Hrun).
  subst r.
  destruct (one_identifier_per_sent_chunk splitter Examples.in_memory "ns" 3
              Examples.blank (Examples.yields documents) documents [] s'
              [""; "i"; "ii"] t) as [_ Hle].
  - intros batch s0 new s1 Hadd. injection Hadd as <- _.
    rewrite length_map, length_seq. reflexivity.
  - reflexivity.
  - exact Hrun.
  - split; [exact Hle|vm_compute; reflexivity].
Defined.

(** ** [ingest_blob]: the store has no say in what is sent *)

Lemma ingest_loop_same_batches {S S'} (splitter : TextSplitter)
    (vs : VectorStore S) (vs' : VectorStore S') (ns : string) (b : Z)
    (documents : list Document) :
  never_raises vs -> never_raises vs' ->
  forall buf ids ids' s s',
    exists bufF idsF sF tF idsF' sF' tF',
      ingest_loop splitter vs ns b documents buf ids s
      = (Ok (bufF, idsF), sF, tF)
      /\ ingest_loop splitter vs' ns b documents buf ids' s'
         = (Ok (bufF, idsF'), sF', tF')
      /\ add_calls tF = add_calls tF'.
Proof.
  intros Hvs Hvs'.
  induction documents as [|d rest IH]; intros buf ids ids' s s'.
  - eexists _, _, _, _, _, _, _. repeat split.
  - destruct (Z.lt_ge_cases (len (buf ++ tagged_chunks splitter ns d)) b)
      as [Hlt|Hge].
    + rewrite !ingest_loop_keep by exact Hlt.
      destruct (IH (buf ++ tagged_chunks splitter ns d) ids ids' s s')
        as (bufF & idsF & sF & tF & idsF' & sF' & tF' & -> & -> & Hcalls).
      eexists _, _, _, _, _, _, _. repeat split. exact Hcalls.
    + destruct (add_documents vs (buf ++ tagged_chunks splitter ns d) s)
        as [r s1] eqn:Hadd.
      destruct (Hvs (buf ++ tagged_chunks splitter ns d) s) as [new Hnew].
      rewrite Hadd in Hnew. simpl in Hnew. subst r.
      destruct (add_documents vs' (buf ++ tagged_chunks splitter ns d) s')
        as [r' s1'] eqn:Hadd'.
      destruct (Hvs' (buf ++ tagged_chunks splitter ns d) s') as [new' Hnew'].
      rewrite Hadd' in Hnew'. simpl in Hnew'. subst r'.
      rewrite (ingest_loop_flush _ _ _ _ _ _ _ _ _ _ _ Hge Hadd).
      rewrite (ingest_loop_flush _ _ _ _ _ _ _ _ _ _ _ Hge Hadd').
      destruct (IH [] (ids ++ new) (ids' ++ new') s1 s1')
        as (bufF & idsF & sF & tF & idsF' & sF' & tF' & -> & -> & Hcalls).
      eexists _, _, _, _, _, _, _. repeat split.
      simpl. rewrite Hcalls. reflexivity.
Qed.

(** X15. The batches that [ingest_blob] sends depend on the parsed
    documents, the splitter, the namespace and the batch size only: two
    stores that accept every batch, in whatever states, are sent the same
    batches.  In particular nothing is looked up or skipped because it is
    already stored: ingesting the same upload again sends the same batches
    again. *)
Theorem batches_independent_of_store {S S'} (splitter : TextSplitter)
    (vs : VectorStore S) (vs' : VectorStore S') (ns : string) (b : Z)
    (blob : Blob) (parser : BaseBlobParser) (s : S) (s' : S') :
  never_raises vs -> never_raises vs' ->
  add_calls (ingest_blob splitter vs ns b blob parser s).2
  = add_calls (ingest_blob splitter vs' ns b blob parser s').2.
Proof.
  intros Hvs Hvs'.
  destruct (lazy_parse parser blob) as [documents|e] eqn:Hparse.
  2:{ rewrite !(ingest_blob_parse_error _ _ _ _ _ _ e _ Hparse). reflexivity. }
  rewrite !(ingest_blob_run _ _ _ _ _ _ documents _ Hparse).
  destruct (ingest_loop_same_batches splitter vs vs' ns b documents Hvs Hvs'
              [] [] [] s s')
    as (bufF & idsF & sF & tF & idsF' & sF' & tF' & -> & -> & Hcalls).
  destruct (Z.lt_ge_cases (len bufF) b) as [Hlt|Hge].
  - rewrite !final_flush_skip by exact Hlt. simpl.
    rewrite !app_nil_r. exact Hcalls.
  - destruct (add_documents vs bufF sF) as [r s1] eqn:Hadd.
    destruct (Hvs bufF sF) as [new Hnew].
    rewrite Hadd in Hnew. simpl in Hnew. subst r.
    destruct (add_documents vs' bufF sF') as [r' s1'] eqn:Hadd'.
    destruct (Hvs' bufF sF') as [new' Hnew'].
    rewrite Hadd' in Hnew'. simpl in Hnew'. subst r'.
    rewrite (final_flush_accept _ _ _ _ _ _ _ Hge Hadd).
    rewrite (final_flush_accept _ _ _ _ _ _ _ Hge Hadd').
    simpl. rewrite !add_calls_app, Hcalls. reflexivity.
Qed.

Lemma batches_independent_of_store_witness :
  let splitter := Examples.length_splitter 1 in
  let parser := Examples.yields [Examples.doc "ab"; Examples.doc "cd"] in
  let first := ingest_blob splitter Examples.in_memory "ns" 2 Examples.blank
                           parser [] in
  let second := ingest_blob splitter Examples.in_memory "ns" 2 Examples.blank
                            parser first.1.2 in
  add_calls first.2 = add_calls second.2
  /\ List.length second.1.2 = 8%nat.
Proof.
  intros splitter parser first second. split.
  - apply (batches_independent_of_store splitter Examples.in_memory
             Examples.in_memory "ns" 2 Examples.blank parser [] first.1.2).
    + intros batch s. eexists. reflexivity.
    + intros batch s. eexists. reflexivity.
  - vm_compute. reflexivity.
Defined.

(** ** The parser fails *)

(** X16. If the parser raises instead of producing documents, [ingest_blob]
    and [aingest_blob] raise the same error: the splitter and the store are
    not called and the store is left as it was. *)
Theorem parser_error_propagates {S} (splitter : TextSplitter)
    (vs : VectorStore S) (ns : string) (b : Z) (blob : Blob)
    (parser : BaseBlobParser) (e : exn) (s : S) :
  lazy_parse parser blob = Err e ->
  ingest_blob splitter vs ns b blob parser s = (Err e, s, [EvParse blob])
  /\ aingest_blob splitter vs ns b blob parser s = (Err e, s, [EvParse blob]).
Proof.
  intros Hparse. split.
  - apply ingest_blob_parse_error. exact Hparse.
  - unfold aingest_blob, bind at 1 2. simpl. rewrite Hparse. reflexivity.
Qed.

Lemma parser_error_propagates_witness :
  let blob := mkBlob [] None "application/pdf" in
  ingest_blob (Examples.length_splitter 1) Examples.in_memory "ns" 2 blob
              (_get_default_parser Examples.text_only) []
  = (Err (ExternalError "parser not installed"), [], [EvParse blob]).
Proof.
  intros blob.
  apply (parser_error_propagates (Examples.length_splitter 1)
           Examples.in_memory "ns" 2 blob
           (_get_default_parser Examples.text_only)).
  vm_compute. reflexivity.
Defined.

(** ** [aingest_blob] and [ingest_blob] *)

Lemma aingest_loop_empty_batches {S} (splitter : TextSplitter)
    (vs : VectorStore S) (ns : string) (b : Z) (documents : list Document) :
  forall ids s,
    match aingest_loop splitter vs ns b documents [] ids s with
    | (Ok (buf, _), _, t) =>
        buf = [] /\ Forall (fun batch => batch = []) (add_calls t)
    | (Err _, _, t) => Forall (fun batch => batch = []) (add_calls t)
    end.
Proof.
  induction documents as [|d rest IH]; intros ids s.
  - simpl. split; [reflexivity|constructor].
  - simpl. unfold bind at 1 2. simpl.
    destruct (len (@nil Document) >=? b).
    + unfold bind, vs_add.
      destruct (add_documents vs [] s) as [[new|e] s1].
      * specialize (IH (ids ++ new) s1).
        destruct (aingest_loop splitter vs ns b rest [] (ids ++ new) s1)
          as [[[[buf ids']|e] s'] t]; simpl.
        -- destruct IH as [-> Hall]. split; [reflexivity|].
           constructor; [reflexivity|exact Hall].
        -- constructor; [reflexivity|exact IH].
      * simpl. repeat constructor.
    + specialize (IH ids s).
      destruct (aingest_loop splitter vs ns b rest [] ids s)
        as [[[[buf ids']|e] s'] t]; simpl; exact IH.
Qed.

(** X17. For every [batch_size], also zero or negative, and whatever the
    parser, the splitter and the store do, every batch that [aingest_blob]
    hands to [add_documents] is empty: the asynchronous variant never sends
    a chunk. *)
Theorem aingest_blob_never_sends_a_chunk {S} (splitter : TextSplitter)
    (vs : VectorStore S) (ns : string) (b : Z) (blob : Blob)
    (parser : BaseBlobParser) (s : S) :
  Forall (fun batch => batch = [])
         (add_calls (aingest_blob splitter vs ns b blob parser s).2).
Proof.
  unfold aingest_blob, bind at 1 2. simpl.
  destruct (lazy_parse parser blob) as [documents|e]; simpl; [|constructor].
  unfold bind.
  pose proof (aingest_loop_empty_batches splitter vs ns b documents [] s) as Hloop.
  destruct (aingest_loop splitter vs ns b documents [] [] s)
    as [[[[buf ids]|e] s1] t1]; cbv beta iota; [|exact Hloop].
  destruct Hloop as [-> Hall].
  destruct (Z.lt_ge_cases (len (@nil Document)) b) as [Hlt|Hge].
  - rewrite final_flush_skip by exact Hlt. simpl. rewrite app_nil_r. exact Hall.
  - destruct (add_documents vs [] s1) as [[new|e] s2] eqn:Hadd.
    + rewrite (final_flush_accept _ _ _ _ _ _ _ Hge Hadd). simpl.
      rewrite add_calls_app. apply Forall_app; split; [exact Hall|].
      repeat constructor.
    + rewrite (final_flush_raise _ _ _ _ _ _ _ Hge Hadd). simpl.
      rewrite add_calls_app. apply Forall_app; split; [exact Hall|].
      repeat constructor.
Qed.

(** X18. When the parsed documents yield fewer chunks than [batch_size],
    [ingest_blob] and [aingest_blob] do the same: both split every
    document, send nothing, leave the store as it was and return the empty
    list. *)
Theorem variants_agree_below_threshold {S} (splitter : TextSplitter)
    (vs : VectorStore S) (ns : string) (b : Z) (blob : Blob)
    (parser : BaseBlobParser) (documents : list Document) (s : S) :
  lazy_parse parser blob = Ok documents ->
  chunk_count splitter ns documents < b ->
  ingest_blob splitter vs ns b blob parser s
  = aingest_blob splitter vs ns b blob parser s
  /\ ingest_blob splitter vs ns b blob parser s
     = (Ok [], s, EvParse blob :: idle_trace documents).
Proof.
  intros Hparse Hsmall.
  pose proof (chunk_count_nonneg splitter ns documents) as Hnonneg.
  assert (Hrun : ingest_blob splitter vs ns b blob parser s
                 = (Ok [], s, EvParse blob :: idle_trace documents)).
  { rewrite (ingest_blob_run _ _ _ _ _ _ documents s Hparse).
    rewrite ingest_loop_idle by (unfold len at 1; simpl; lia).
    rewrite final_flush_skip by exact Hsmall.
    rewrite app_nil_r. reflexivity. }
  split; [|exact Hrun].
  rewrite Hrun. unfold aingest_blob, bind at 1 2. simpl.
  rewrite Hparse. simpl. unfold bind.
  rewrite aingest_loop_idle by lia.
  rewrite final_flush_skip by (unfold len; simpl; lia).
  rewrite app_nil_r. reflexivity.
Qed.

Lemma variants_agree_below_threshold_witness :
  let splitter := Examples.length_splitter 1 in
  let parser := Examples.yields [Examples.doc "ab"; Examples.doc "c"] in
  ingest_blob splitter Examples.in_memory "ns" 4 Examples.blank parser []
  = aingest_blob splitter Examples.in_memory "ns" 4 Examples.blank parser [].
Proof.
  intros splitter parser.
  apply (variants_agree_below_threshold splitter Examples.in_memory "ns" 4
           Examples.blank parser [Examples.doc "ab"; Examples.doc "c"] []).
  - reflexivity.
  - vm_compute. reflexivity.
Defined.

(** ** What is sent at all *)

(** X19. For [batch_size >= 1], [ingest_blob] calls [add_documents] at
    least once if and only if the parsed documents yield at least
    [batch_size] chunks: a smaller upload never reaches the store. *)
Theorem store_reached_iff_threshold_reached {S} (splitter : TextSplitter)
    (vs : VectorStore S) (ns : string) (b : Z) (blob : Blob)
    (parser : BaseBlobParser) (documents : list Document) (s : S) :
  1 <= b ->
  lazy_parse parser blob = Ok documents ->
  add_calls (ingest_blob splitter vs ns b blob parser s).2 <> []
  <-> b <= chunk_count splitter ns documents.
Proof.
  intros Hb Hparse. split.
  - intros Hcalls.
    destruct (ingest_blob_calls splitter vs ns b blob parser s) as [Hsize _].
    pose proof (ingest_blob_order splitter vs ns b blob parser documents s Hparse)
      as Horder.
    destruct (ingest_blob splitter vs ns b blob parser s) as [[r s'] t].
    simpl in *. destruct Horder as (Hprefix & _).
    apply prefix_length in Hprefix.
    destruct (add_calls t) as [|batch rest]; [contradiction|].
    inversion Hsize as [|? ? Hbatch _]; subst.
    simpl in Hprefix. rewrite length_app in Hprefix.
    unfold chunk_count, len in *. lia.
  - intros Hge Hcalls.
    destruct (Z.lt_ge_cases (chunk_count splitter ns documents) b) as [Hlt|_];
      [lia|].
    pose proof (ingest_blob_outcome splitter vs ns b blob parser s) as Hout.
    destruct (ingest_blob splitter vs ns b blob parser s)
      as [[[ids|e] s'] t] eqn:Hrun; simpl in Hcalls.
    + destruct (unsent_remainder_lemma splitter vs ns b blob parser documents
                  s s' ids t Hb Hparse Hrun) as (remainder & Hall & Hlt).
      rewrite Hcalls in Hall. simpl in Hall.
      unfold chunk_count in Hge. rewrite Hall in Hge. lia.
    + destruct Hout as (_ & [[Herr _]|(t1 & batch & -> & _)]).
      * rewrite Hparse in Herr. discriminate.
      * rewrite add_calls_app in Hcalls. simpl in Hcalls.
        destruct (add_calls t1); discriminate.
Qed.

Lemma store_reached_iff_threshold_reached_witness :
  let splitter := Examples.length_splitter 1 in
  let documents := [Examples.doc "a"; Examples.doc "bc"] in
  add_calls (ingest_blob splitter Examples.in_memory "ns" 3 Examples.blank
                         (Examples.yields documents) []).2 <> []
  /\ add_calls (ingest_blob splitter Examples.in_memory "ns" 4 Examples.blank
                            (Examples.yields documents) []).2 = [].
Proof.
  intros splitter documents. split.
  - apply (store_reached_iff_threshold_reached splitter Examples.in_memory
             "ns" 3 Examples.blank (Examples.yields documents) documents []).
    + lia.
    + reflexivity.
    + vm_compute. discriminate.
  - vm_compute. reflexivity.
Defined.

(** ** [aingest_blob] with a threshold of zero or less *)

Lemma aingest_loop_always_flushes {S} (splitter : TextSplitter)
    (vs : VectorStore S) (ns : string) (b : Z) (documents : list Document) :
  b <= 0 -> never_raises vs ->
  forall ids s,
    exists ids' s' t,
      aingest_loop splitter vs ns b documents [] ids s = (Ok ([], ids'), s', t)
      /\ add_calls t = repeat [] (List.length documents).
Proof.
  intros Hb Hstore. induction documents as [|d rest IH]; intros ids s.
  - exists ids, s, []. split; reflexivity.
  - simpl. unfold bind at 1 2. simpl.
    destruct (Z.geb_spec (len (@nil Document)) b) as [_|Hlt];
      [|unfold len in Hlt; simpl in Hlt; lia].
    unfold bind, vs_add.
    destruct (add_documents vs [] s) as [r s1] eqn:Hadd.
    destruct (Hstore [] s) as [new Hnew].
    rewrite Hadd in Hnew. simpl in Hnew. subst r.
    destruct (IH (ids ++ new) s1) as (ids' & s' & t & -> & Hcalls).
    eexists _, _, _. split; [reflexivity|].
    simpl. rewrite Hcalls. reflexivity.
Qed.

(** X20. With [batch_size <= 0] and a store that accepts every batch,
    [aingest_blob] calls [add_documents] with the empty list once for every
    parsed document and once more after the loop, and returns what these
    calls returned: the store is called, but is never given a chunk. *)
Theorem aingest_nonpositive_batch_size_sends_empty_batches {S}
    (splitter : TextSplitter) (vs : VectorStore S) (ns : string) (b : Z)
    (blob : Blob) (parser : BaseBlobParser) (documents : list Document)
    (s : S) :
  b <= 0 ->
  never_raises vs ->
  lazy_parse parser blob = Ok documents ->
  exists ids s' t,
    aingest_blob splitter vs ns b blob parser s = (Ok ids, s', t)
    /\ add_calls t = repeat [] (List.length documents + 1).
Proof.
  intros Hb Hstore Hparse.
  unfold aingest_blob, bind at 1 2. simpl. rewrite Hparse. simpl. unfold bind.
  destruct (aingest_loop_always_flushes splitter vs ns b documents Hb Hstore [] s)
    as (ids1 & s1 & t1 & -> & Hcalls).
  destruct (add_documents vs [] s1) as [r s2] eqn:Hadd.
  destruct (Hstore [] s1) as [new Hnew].
  rewrite Hadd in Hnew. simpl in Hnew. subst r.
  assert (Hge : b <= len (@nil Document)) by (unfold len; simpl; lia).
  rewrite (final_flush_accept _ _ _ _ _ _ _ Hge Hadd).
  eexists _, _, _. split; [reflexivity|].
  cbn [add_calls]. rewrite add_calls_app, Hcalls. simpl.
  rewrite repeat_app. reflexivity.
Qed.

Lemma aingest_nonpositive_batch_size_sends_empty_batches_witness :
  let documents := [Examples.doc "ab"; Examples.doc "c"] in
  exists ids s' t,
    aingest_blob (Examples.length_splitter 1) Examples.in_memory "ns" 0
                 Examples.blank (Examples.yields documents) []
    = (Ok ids, s', t)
    /\ add_calls t = [[]; []; []].
Proof.
  intros documents.
  apply (aingest_nonpositive_batch_size_sends_empty_batches
           (Examples.length_splitter 1) Examples.in_memory "ns" 0
           Examples.blank (Examples.yields documents) documents []).
  - lia.
  - intros batch s. eexists. reflexivity.
  - reflexivity.
Defined.

(** ** [config_specs] and [invoke] *)

(** X21. [config_specs] keeps the inherited fields, in order, and adds one
    field last, for [namespace]; the default it advertises for it is the
    empty string, and a runnable whose namespace is that default cannot
    ingest: [invoke] raises [ValueError] on every input. *)
Theorem config_specs_default_namespace_is_rejected {S}
    (inherited : list ConfigurableFieldSpec) :
  exists spec,
    config_specs inherited = inherited ++ [spec]
    /\ last (config_specs inherited) = Some spec
    /\ spec_id spec = "namespace"
    /\ spec_default spec = default_namespace
    /\ forall (rt : Runtime) (lib : ParserLibrary) (splitter : TextSplitter)
              (vs : VectorStore S) (key : string)
              (input : gmap string string) (s : S),
         invoke rt lib (mkIngestRunnable splitter vs key (spec_default spec))
                input s
         = (Err (ValueError "namespace must be provided"), s, []).
Proof.
  exists (mkConfigurableFieldSpec "namespace" AnnStr "" "" "").
  unfold config_specs. repeat split.
  apply last_snoc.
Qed.
